(** * Supplier Quality Ratios: aggregation, ratio tables and the PBC engine

    A shallow embedding of the computing core of [SQR_dashboard.py] and
    [SQR_Excel_Calculation.py]: the temporal key extractor
    ([generate_unique_list]), the period counter ([generate_count_dict]),
    the three ratio loops that run at module level ([DMR_PO_perc_yr],
    [DMR_PO_perc_month], [vendor_SQR_ratios]), the presented tables and the
    bar chart of the top eight vendors, and the Process Behavior Chart
    computation ([calculate_and_plot_pbc]).

    Conventions of the embedding.
    - A Python [dict] is a finite map ([gmap]); the order in which a dict
      lists its keys is not observable in any statement below.
    - A dataframe column is a list of cells, a dataframe a list of rows.
    - Counts are the non-negative integers pandas produces by summing a
      boolean column or by taking group sizes ([N]); the 64-bit range is
      never approached by a count of in-memory rows.
    - Floating-point numbers are exact rationals ([Qc]) extended with the
      non-finite values that numpy division produces.
    - Strings are byte strings; the date strings sliced here are ASCII. *)

From Stdlib Require Import Ascii String QArith Qcanon Qround.
From stdpp Require Import gmap strings list fin_maps sorting numbers.

Local Open Scope Z_scope.

(* stdpp's solvers clear hypotheses that an earlier step already removed. *)
#[local] Set Warnings "-clear-no-such-hyp".

(** ** Exceptions and the result of a computation that may raise *)

Inductive exn := KeyError | ValueError | IndexError | ZeroDivisionError.

Global Instance exn_eq_dec : EqDecision exn.
Proof. solve_decision. Defined.

Inductive result (A : Type) :=
  | Ok (a : A)
  | Raise (e : exn).
Arguments Ok {A} a.
Arguments Raise {A} e.

Global Instance result_eq_dec `{EqDecision A} : EqDecision (result A).
Proof. solve_decision. Defined.

Global Instance result_ret : MRet result := λ A a, Ok a.
Global Instance result_bind : MBind result := λ A B k c,
  match c with
  | Ok a => k a
  | Raise e => Raise e
  end.

(** [for x in l: body(x)], threading the state the loop body updates. *)
Fixpoint for_in {A S} (l : list A) (body : A → S → result S) (s : S) : result S :=
  match l with
  | [] => Ok s
  | x :: l' => s' ← body x s; for_in l' body s'
  end.

(** [d[k]]: raises [KeyError] on a missing key. *)
Definition getitem `{Countable K} {V} (d : gmap K V) (k : K) : result V :=
  match d !! k with
  | Some v => Ok v
  | None => Raise KeyError
  end.

(** ** Floating-point values *)

Inductive float :=
  | Fin (q : Qc)
  | PInf
  | NInf
  | NaN.

Global Instance float_eq_dec : EqDecision float.
Proof. solve_decision. Defined.

Definition float_of_Z (n : Z) : float := Fin (Qc_of_Z n).

Definition float_opp (x : float) : float :=
  match x with
  | Fin q => Fin (- q)%Qc
  | PInf => NInf
  | NInf => PInf
  | NaN => NaN
  end.

Definition float_add (x y : float) : float :=
  match x, y with
  | NaN, _ | _, NaN => NaN
  | Fin a, Fin b => Fin (a + b)%Qc
  | PInf, NInf | NInf, PInf => NaN
  | PInf, _ | _, PInf => PInf
  | NInf, _ | _, NInf => NInf
  end.

Definition float_sub (x y : float) : float := float_add x (float_opp y).

Definition float_mul (x y : float) : float :=
  match x, y with
  | NaN, _ | _, NaN => NaN
  | Fin a, Fin b => Fin (a * b)%Qc
  | Fin a, PInf | PInf, Fin a =>
      if decide (a = 0%Qc) then NaN else if decide (0 < a)%Qc then PInf else NInf
  | Fin a, NInf | NInf, Fin a =>
      if decide (a = 0%Qc) then NaN else if decide (0 < a)%Qc then NInf else PInf
  | PInf, PInf | NInf, NInf => PInf
  | PInf, NInf | NInf, PInf => NInf
  end.

(** [x < y]; every comparison with NaN is false. *)
Definition float_ltb (x y : float) : bool :=
  match x, y with
  | NaN, _ | _, NaN => false
  | Fin a, Fin b => bool_decide (a < b)%Qc
  | NInf, NInf => false
  | NInf, _ => true
  | _, PInf => match x with PInf => false | _ => true end
  | _, _ => false
  end.

(** numpy true division of two int64 counts: it never raises; a zero
    divisor gives [inf] (or [nan] for 0/0) under a RuntimeWarning. *)
Definition np_true_divide (a b : N) : float :=
  if decide (b = 0%N) then
    if decide (a = 0%N) then NaN else PInf
  else Fin (Qc_of_Z (Z.of_N a) / Qc_of_Z (Z.of_N b))%Qc.

(** Python true division of two ints: raises on a zero divisor. *)
Definition py_true_divide (a b : N) : result Qc :=
  if decide (b = 0%N) then Raise ZeroDivisionError
  else Ok (Qc_of_Z (Z.of_N a) / Qc_of_Z (Z.of_N b))%Qc.

(** A cell of a ratio dictionary: [None] or a float. *)
Inductive cell :=
  | PyNone
  | PyFloat (x : float).

Global Instance cell_eq_dec : EqDecision cell.
Proof. solve_decision. Defined.

(** Decimal literals of the source. *)
Definition dec (n : Z) (d : positive) : Qc := Q2Qc (n # d).
Definition c100 : Qc := Qc_of_Z 100.
Definition c2_66 : Qc := dec 266 100.
Definition c3_27 : Qc := dec 327 100.

(** ** Rounding *)

(** Round to the nearest integer, ties to the even neighbour. *)
Definition round_half_even (q : Qc) : Z :=
  let f := Qfloor q in
  let r := (q - Qc_of_Z f)%Qc in
  if decide (r < dec 1 2)%Qc then f
  else if decide (dec 1 2 < r)%Qc then f + 1
  else if Z.even f then f else f + 1.

(** [round(x, decimals)] of numpy and pandas, and the value printed by a
    [.nf] format, on a finite value. *)
Definition round_dp (decimals : nat) (q : Qc) : Qc :=
  let scale := Qc_of_Z (10 ^ Z.of_nat decimals) in
  (Qc_of_Z (round_half_even (q * scale)) / scale)%Qc.

Definition float_round (decimals : nat) (x : float) : float :=
  match x with
  | Fin q => Fin (round_dp decimals q)
  | _ => x
  end.


(** ** Strings *)

(** [s[:4]] and [s[5:7]]. *)
Definition year_key (s : string) : string := String.substring 0 4 s.
Definition month_key (s : string) : string := String.substring 5 2 s.

Definition is_digit (a : ascii) : bool :=
  bool_decide (is_Some (Ascii.is_nat a)).

Fixpoint all_digits (s : string) : bool :=
  match s with
  | EmptyString => true
  | String a s' => is_digit a && all_digits s'
  end.

(** [str.isdigit()]: false on the empty string. *)
Definition isdigit (s : string) : bool :=
  match s with
  | EmptyString => false
  | _ => all_digits s
  end.

Fixpoint int_of_digits (acc : Z) (s : string) : Z :=
  match s with
  | EmptyString => acc
  | String a s' => int_of_digits (10 * acc + Z.of_nat (default 0%nat (Ascii.is_nat a))) s'
  end.

(** [int(s)] on a string of digits. *)
Definition int_of_string (s : string) : Z := int_of_digits 0 s.

(** ** Temporal key extractor *)

(** One step of the [if x not in acc: acc.append(x)] idiom. *)
Definition append_new (acc : list string) (x : string) : list string :=
  if decide (x ∈ acc) then acc else acc ++ [x].

(** [Series.unique()]: the distinct values in order of first appearance. *)
Definition unique (col : list string) : list string := foldl append_new [] col.

(** The reading of "the distinct keys, in first-seen order": every element
    at the place of its first occurrence, later occurrences removed. *)
Fixpoint first_seen (l : list string) : list string :=
  match l with
  | [] => []
  | x :: l' => x :: filter (λ y, y ≠ x) (first_seen l')
  end.

Module Dashboard.

(** [generate_unique_list(df, option, date_column)] of SQR_dashboard.py;
    [dates] is the column [df[date_column]]. A call with any other option
    falls off the end of the function and returns [None]. *)
Definition generate_unique_list (dates : list string) (option : string)
    : Datatypes.option (list string) :=
  if decide (option = "Year") then
    let date_ := unique dates in
    Some (foldl (λ unique_DMRs_years date_string,
                   let year := String.substring 0 4 date_string in
                   append_new unique_DMRs_years year) [] date_)
  else if decide (option = "Month") then
    let date_ := unique dates in
    Some (foldl (λ unique_DMRs_months date_string,
                   let month := String.substring 0 4 date_string in
                   append_new unique_DMRs_months month) [] date_)
  else None.

End Dashboard.

Module Excel.

(** [generate_unique_list] of SQR_Excel_Calculation.py: only the 'Year'
    branch exists. *)
Definition generate_unique_list (dates : list string) (option : string)
    : Datatypes.option (list string) :=
  if decide (option = "Year") then
    let date_ := unique dates in
    Some (foldl (λ unique_DMRs_years date_string,
                   let year := String.substring 0 4 date_string in
                   append_new unique_DMRs_years year) [] date_)
  else None.

End Excel.

(** ** Period counter *)

(** The value [generate_count_dict] returns: a flat dictionary for 'Year',
    a dictionary of dictionaries for 'Month'. *)
Inductive count_dict_t :=
  | YearCounts (d : gmap string N)
  | MonthCounts (d : gmap string (gmap string N)).

(** [(df[date_column].str[:4] == year).sum()] *)
Definition count_year (dates : list string) (year : string) : N :=
  N.of_nat (length (filter (λ d, year_key d = year) dates)).

(** [(df[df[date_column].str[:4]==yr][date_column].str[5:7]==month).sum()] *)
Definition count_year_month (dates : list string) (yr month : string) : N :=
  N.of_nat (length (filter (λ d, month_key d = month)
                           (filter (λ d, year_key d = yr) dates))).

(** [generate_count_dict(df, option, date_column, unique_list)], the same
    in both scripts. *)
Definition generate_count_dict (dates : list string) (option : string)
    (unique_list : list string) : Datatypes.option count_dict_t :=
  if decide (option = "Year") then
    Some (YearCounts
      (foldl (λ count_dict year,
                let count := count_year dates year in
                <[year := count]> count_dict) ∅ unique_list))
  else if decide (option = "Month") then
    let unique_years := unique (year_key <$> dates) in
    Some (MonthCounts
      (foldl (λ count_dict yr,
                let month_counts :=
                  foldl (λ month_counts month,
                           let count := count_year_month dates yr month in
                           <[month := count]> month_counts) ∅ unique_list in
                <[yr := month_counts]> count_dict) ∅ unique_years))
  else None.

Definition unique_months : list string :=
  ["01"; "02"; "03"; "04"; "05"; "06"; "07"; "08"; "09"; "10"; "11"; "12"].

(** The keys of a dictionary, as a [for k in d] loop visits them. *)
Definition keys `{Countable K} {V} (d : gmap K V) : list K := (map_to_list d).*1.

(** ** Ratio calculator *)

(** The year-level loop. The counts are numpy integers, so the unguarded
    division cannot raise. *)
Definition DMR_PO_perc_yr (dmrs_years : list string)
    (DMRs_yrs_count PO_yrs_count : gmap string N) : result (gmap string cell) :=
  for_in dmrs_years
    (λ year DMR_PO_perc_yr,
       if decide (is_Some (PO_yrs_count !! year)) then
         dmr_count ← getitem DMRs_yrs_count year;
         po_count ← getitem PO_yrs_count year;
         let ratio := float_mul (np_true_divide dmr_count po_count) (Fin c100) in
         Ok (<[year := PyFloat ratio]> DMR_PO_perc_yr)
       else
         Ok (<[year := PyNone]> DMR_PO_perc_yr))
    ∅.

(** [sorted(set(a.keys()) & set(b.keys()))] *)
Definition sorted_common_keys {V W} (a : gmap string V) (b : gmap string W) : list string :=
  merge_sort String.le (elements (dom a ∩ dom b)).

(** The body of [for month in PO_month_count[year]]. *)
Definition month_body (DMRs_month_count PO_month_count : gmap string (gmap string N))
    (year month : string) (year_ratio : gmap string float) : result (gmap string float) :=
  po_year ← getitem PO_month_count year;
  if decide (is_Some (po_year !! month)) then
    dmr_year ← getitem DMRs_month_count year;
    dmr_count ← getitem dmr_year month;
    po_year ← getitem PO_month_count year;
    po_count ← getitem po_year month;
    if decide (po_count ≠ 0%N) then
      let ratio := float_mul (np_true_divide dmr_count po_count) (Fin c100) in
      Ok (<[month := ratio]> year_ratio)
    else Ok year_ratio
  else Ok year_ratio.

(** The month-level loop. *)
Definition DMR_PO_perc_month (DMRs_month_count PO_month_count : gmap string (gmap string N))
    : result (gmap string (gmap string float)) :=
  for_in (sorted_common_keys DMRs_month_count PO_month_count)
    (λ year DMR_PO_perc_month,
       po_year ← getitem PO_month_count year;
       year_ratio ← for_in (keys po_year)
                      (month_body DMRs_month_count PO_month_count year) ∅;
       Ok (<[year := year_ratio]> DMR_PO_perc_month))
    ∅.

(** ** Vendor aggregator *)

(** A record of either log: its date string and its vendor. *)
Definition record : Type := string * string.

(** [df['Year'] = df[date].str[:4]; df = df[df['Year'].str.isdigit()];
    df['Year'] = df['Year'].astype(int)], keeping the two columns the
    grouping uses. *)
Definition with_int_year (df : list record) : list (Z * string) :=
  (λ r, (int_of_string (year_key r.1), r.2)) <$>
  filter (λ r, isdigit (year_key r.1) = true) df.

Definition year_vendor_le (a b : Z * string) : Prop :=
  a.1 < b.1 ∨ (a.1 = b.1 ∧ String.le a.2 b.2).

Global Instance year_vendor_le_dec : RelDecision year_vendor_le.
Proof. intros a b. unfold year_vendor_le. apply _. Defined.

(** [df.groupby(['Year', vendor]).size().reset_index(name='DMR Count')]:
    one row per observed (year, vendor) pair, in sorted order, with the
    number of records of the pair. *)
Definition groupby_size (df : list (Z * string)) : list (Z * string * N) :=
  (λ k, (k.1, k.2, N.of_nat (length (filter (λ r, r = k) df)))) <$>
  merge_sort year_vendor_le (remove_dups df).

(** The [iterrows] loop that turns the grouped frame into a dictionary of
    dictionaries. *)
Definition vendor_counts (rows : list (Z * string * N)) : gmap string (gmap Z N) :=
  foldl (λ counts row,
           let year := row.1.1 in
           let vendor := row.1.2 in
           let count := row.2 in
           let counts :=
             if decide (is_Some (counts !! vendor)) then counts
             else <[vendor := ∅]> counts in
           alter (λ per_year, <[year := count]> per_year) vendor counts)
        ∅ rows.

(** The body of [for year in dmr_counts_per_year]. The row values that
    [iterrows] hands out are Python ints, whose division raises on zero; the
    guard keeps it from being reached. *)
Definition vendor_body (vendor_PO_counts : gmap string (gmap Z N))
    (vendor : string) (dmr_counts_per_year : gmap Z N)
    (year : Z) (ratios : gmap string (gmap Z cell)) : result (gmap string (gmap Z cell)) :=
  let assign (x : cell) :=
    row ← getitem ratios vendor;
    Ok (<[vendor := <[year := x]> row]> ratios) in
  match vendor_PO_counts !! vendor ≫= (λ po_years, po_years !! year) with
  | Some _ =>
      po_years ← getitem vendor_PO_counts vendor;
      po_count ← getitem po_years year;
      if decide (po_count ≠ 0%N) then
        dmr_count ← getitem dmr_counts_per_year year;
        q ← py_true_divide dmr_count po_count;
        let ratio := (q * c100)%Qc in
        assign (PyFloat (Fin ratio))
      else Ok ratios
  | None => assign PyNone
  end.

(** The vendor-level loop. *)
Definition vendor_SQR_ratios (vendor_DMR_counts vendor_PO_counts : gmap string (gmap Z N))
    : result (gmap string (gmap Z cell)) :=
  for_in (map_to_list vendor_DMR_counts)
    (λ item ratios,
       let vendor := item.1 in
       let dmr_counts_per_year := item.2 in
       let ratios :=
         if decide (is_Some (ratios !! vendor)) then ratios
         else <[vendor := ∅]> ratios in
       for_in (keys dmr_counts_per_year)
              (vendor_body vendor_PO_counts vendor dmr_counts_per_year) ratios)
    ∅.

(** ** Presented tables *)



(** [df_vendor_SQR_ratios]: one row per key of the vendor dictionary, with
    the vendor and its per-year cells; no rounding is applied. *)
Definition df_vendor_SQR_ratios (vendor_SQR_ratios : gmap string (gmap Z cell))
    : list (string * gmap Z cell) :=
  map_to_list vendor_SQR_ratios.

(** The float a frame holds at a column, when [dropna] keeps the row: a
    missing entry, [None] and NaN are all dropped. *)
Definition notna (c : Datatypes.option cell) : Datatypes.option float :=
  match c with
  | Some (PyFloat NaN) => None
  | Some (PyFloat x) => Some x
  | _ => None
  end.

(** The order [sort_values(ascending=False)] puts two kept values in. *)
Definition float_ge (x y : float) : Prop := float_ltb x y = false.

Global Instance float_ge_dec : RelDecision float_ge.
Proof. intros x y. unfold float_ge. apply _. Defined.

Definition bar_ge (a b : string * float) : Prop := float_ge a.2 b.2.

Global Instance bar_ge_dec : RelDecision bar_ge.
Proof. intros a b. unfold bar_ge. apply _. Defined.

(** A bar of the chart: the vendor, the bar length, the text label. *)
Record bar := { bar_vendor : string; bar_value : float; bar_text : float }.

Global Instance bar_eq_dec : EqDecision bar.
Proof. solve_decision. Defined.

(** [generate_SQR_bar_chart(df_SQR, year)] of SQR_dashboard.py. Selecting
    a column no row has raises [KeyError]. The label is the value printed
    with two decimals. Which of two equal values pandas lists first is left
    open by its sort; nothing below depends on it. *)
Definition generate_SQR_bar_chart (df_SQR : list (string * gmap Z cell)) (year : Z)
    : result (list bar) :=
  if decide (Exists (λ row, is_Some (row.2 !! year)) df_SQR) then
    let dropped := omap (λ row, x ← notna (row.2 !! year); Some (row.1, x)) df_SQR in
    let sorted_year_SQR := merge_sort bar_ge dropped in
    let top8_SQRs := take 8 sorted_year_SQR in
    Ok ((λ r, {| bar_vendor := r.1; bar_value := r.2;
                 bar_text := float_round 2 r.2 |}) <$> top8_SQRs)
  else Raise KeyError.

(** ** Process Behavior Chart *)

Record timestamp := { ts_year : Z; ts_month : Z; ts_day : Z }.

(** A cell of the 'Date' column: the string the log holds, or what
    [pd.to_datetime] makes of it. *)
Inductive date_cell :=
  | DateStr (s : string)
  | Timestamp (t : timestamp)
  | NaT.

Record dmr_row := { Date : date_cell; Vendor : string }.

Global Instance timestamp_eq_dec : EqDecision timestamp.
Proof. solve_decision. Defined.
Global Instance date_cell_eq_dec : EqDecision date_cell.
Proof. solve_decision. Defined.
Global Instance dmr_row_eq_dec : EqDecision dmr_row.
Proof. solve_decision. Defined.

(** A 'Year-Month' period; the text form 'YYYY-MM' orders as the pair. *)
Definition year_month : Type := Z * Z.

Definition year_month_le (a b : year_month) : Prop :=
  a.1 < b.1 ∨ (a.1 = b.1 ∧ a.2 ≤ b.2).

Global Instance year_month_le_dec : RelDecision year_month_le.
Proof. intros a b. unfold year_month_le. apply _. Defined.

Definition row_le (a b : year_month * N) : Prop := year_month_le a.1 b.1.

Global Instance row_le_dec : RelDecision row_le.
Proof. intros a b. unfold row_le. apply _. Defined.

(** [.dt.year] and [.dt.to_period('M')]; undefined off a timestamp. *)
Definition dt_year (c : date_cell) : Datatypes.option Z :=
  match c with
  | Timestamp t => Some (ts_year t)
  | _ => None
  end.

Definition dt_period_M (c : date_cell) : Datatypes.option year_month :=
  match c with
  | Timestamp t => Some (ts_year t, ts_month t)
  | _ => None
  end.

(** [Series.mean()]: NaN on an empty series. *)
Definition series_mean (counts : list N) : float :=
  match counts with
  | [] => NaN
  | _ => Fin (Qc_of_Z (Z.of_N (foldr N.add 0%N counts))
              / Qc_of_Z (Z.of_nat (length counts)))%Qc
  end.

(** [frame[name] = values]: pandas refuses a list whose length differs
    from the length of the index. *)
Definition set_column {A B} (index : list A) (values : list B) : result (list B) :=
  if decide (length values = length index) then Ok values else Raise ValueError.

(** [l[-1]] *)
Definition getitem_last {A} (l : list A) : result A :=
  match list.last l with
  | Some x => Ok x
  | None => Raise IndexError
  end.

(** What the chart is drawn from: the monthly frame with its added
    columns, and the three broadcast limits. *)
Record pbc_chart := {
  dmr_per_month : list (year_month * N);
  mean_dmr : float;
  moving_ranges : list Z;
  average_moving_ranges : Z;
  UPL : float;
  LPL : float;
  URL : float
}.

Global Instance pbc_chart_eq_dec : EqDecision pbc_chart.
Proof. solve_decision. Defined.

(** [[0] + [abs(next_val - current_val) for current_val, next_val in
    zip(counts[:-1], counts[1:])]] *)
Definition moving_ranges_of (counts : list N) : list Z :=
  0 :: zip_with (λ current_val next_val, Z.abs (Z.of_N next_val - Z.of_N current_val))
                (take (length counts - 1) counts) (drop 1 counts).

(** The statistics of [calculate_and_plot_pbc], from the mean on. *)
Definition pbc_statistics (dmr_per_month : list (year_month * N)) : result pbc_chart :=
  let counts := dmr_per_month.*2 in
  let mean_dmr := series_mean counts in
  let moving_ranges := moving_ranges_of counts in
  column ← set_column dmr_per_month moving_ranges;
  average_moving_ranges ← getitem_last moving_ranges;
  let UPL := float_add mean_dmr (float_mul (Fin c2_66) (float_of_Z average_moving_ranges)) in
  let LPL := float_sub mean_dmr (float_mul (Fin c2_66) (float_of_Z average_moving_ranges)) in
  let LPL := if float_ltb LPL (Fin 0%Qc) then Fin 0%Qc else mean_dmr in
  let URL := float_mul (float_of_Z average_moving_ranges) (Fin c3_27) in
  Ok {| dmr_per_month := dmr_per_month;
        mean_dmr := mean_dmr;
        moving_ranges := column;
        average_moving_ranges := average_moving_ranges;
        UPL := UPL; LPL := LPL; URL := URL |}.

Section PBC.

(** [pd.to_datetime] on one string of the log: the parsed timestamp, or
    nothing where [errors='coerce'] gives NaT. *)
Variable parse_datetime : string → Datatypes.option timestamp.

Definition to_datetime (c : date_cell) : date_cell :=
  match c with
  | DateStr s =>
      match parse_datetime s with
      | Some t => Timestamp t
      | None => NaT
      end
  | _ => c
  end.

(** [raw_df['Date'] = pd.to_datetime(raw_df['Date'], errors='coerce')]:
    the frame after the assignment. *)
Definition convert_dates (raw_df : list dmr_row) : list dmr_row :=
  (λ r, {| Date := to_datetime (Date r); Vendor := Vendor r |}) <$> raw_df.

(** The monthly frame of one vendor and year: the rows of the vendor in
    the year, their 'Year-Month' (a column added to the filtered copy, not
    to [raw_df]), the size of each group, sorted by 'Year-Month'. *)
Definition monthly_frame (vendor : string) (year : Z) (raw_df : list dmr_row)
    : list (year_month * N) :=
  let vendor_data :=
    filter (λ r, Vendor r = vendor ∧ dt_year (Date r) = Some year) raw_df in
  let Year_Month := omap (λ r, dt_period_M (Date r)) vendor_data in
  let dmr_per_month :=
    (λ k, (k, N.of_nat (length (filter (λ ym, ym = k) Year_Month)))) <$>
    merge_sort year_month_le (remove_dups Year_Month) in
  merge_sort row_le dmr_per_month.

(** [calculate_and_plot_pbc(vendor, year, raw_df)]. The first statement
    assigns to a column of the frame the caller passed, so the frame is
    part of the result; the chart is what is plotted and written to the
    returned buffer. *)
Definition calculate_and_plot_pbc (vendor : string) (year : Z) (raw_df : list dmr_row)
    : list dmr_row * result pbc_chart :=
  let raw_df := convert_dates raw_df in
  (raw_df, pbc_statistics (monthly_frame vendor year raw_df)).

End PBC.



(** A reader of 'YYYY-MM-DD' prefixes, for the examples. *)
Definition parse_iso (s : string) : Datatypes.option timestamp :=
  let y := String.substring 0 4 s in
  let m := String.substring 5 2 s in
  let d := String.substring 8 2 s in
  if isdigit y && isdigit m && isdigit d
     && bool_decide (String.length y = 4%nat ∧ String.length m = 2%nat ∧ String.length d = 2%nat)
     && bool_decide (String.substring 4 1 s = "-" ∧ String.substring 7 1 s = "-")
  then Some {| ts_year := int_of_string y; ts_month := int_of_string m;
               ts_day := int_of_string d |}
  else None.

(** ** The vendor table from the two logs *)

(** The module-level statements from the year column to
    [df_vendor_SQR_ratios], as a function of the two logs. *)
Definition vendor_table (DMR_df supplier_PO_df : list record)
    : result (list (string * gmap Z cell)) :=
  let vendors_yr_DMR_count_df := groupby_size (with_int_year DMR_df) in
  let vendors_yr_PO_count_df := groupby_size (with_int_year supplier_PO_df) in
  let vendor_DMR_counts := vendor_counts vendors_yr_DMR_count_df in
  let vendor_PO_counts := vendor_counts vendors_yr_PO_count_df in
  ratios ← vendor_SQR_ratios vendor_DMR_counts vendor_PO_counts;
  Ok (df_vendor_SQR_ratios ratios).

Definition frame_5382 : list (year_month * N) :=
  [((2023, 1), 5%N); ((2023, 2), 3%N); ((2023, 3), 8%N); ((2023, 4), 2%N)].

Definition log_two_vendors : list dmr_row :=
  [ {| Date := DateStr "2023-01-05"; Vendor := "ACME" |};
    {| Date := DateStr "2024-03-11"; Vendor := "BOLT" |} ].

(** A DMR log in which ACME has 5, 3, 8 and 2 reports in the first four
    months of 2023, among reports of another vendor, of another year, and
    one without a date. *)
Definition log_5382 : list dmr_row :=
  [ {| Date := DateStr "2023-03-02"; Vendor := "ACME" |};
    {| Date := DateStr "2022-12-30"; Vendor := "ACME" |};
    {| Date := DateStr "nan"; Vendor := "ACME" |};
    {| Date := DateStr "2023-01-17"; Vendor := "BOLT" |} ]
  ++ replicate 5 {| Date := DateStr "2023-01-09"; Vendor := "ACME" |}
  ++ replicate 2 {| Date := DateStr "2023-04-21"; Vendor := "ACME" |}
  ++ replicate 3 {| Date := DateStr "2023-02-14"; Vendor := "ACME" |}
  ++ replicate 7 {| Date := DateStr "2023-03-30"; Vendor := "ACME" |}.

(** * Properties *)

Example gul_year :
  Dashboard.generate_unique_list ["2023-01-05"; "2022-03-01"; "2023-02-07"] "Year"
  = Some ["2023"; "2022"].
Proof. reflexivity. Qed.


Example yr_10 :
  DMR_PO_perc_yr ["2023"] {[ "2023" := 10%N ]} {[ "2023" := 100%N ]}
  = Ok {[ "2023" := PyFloat (Fin (Qc_of_Z 10)) ]}.
Proof. compute_done. Qed.

Example yr_missing :
  DMR_PO_perc_yr ["2023"] {[ "2023" := 10%N ]} ∅ = Ok {[ "2023" := PyNone ]}.
Proof. compute_done. Qed.

Example month_zero :
  DMR_PO_perc_month {[ "2023" := {[ "01" := 5%N ]} ]} {[ "2023" := {[ "01" := 0%N ]} ]}
  = Ok {[ "2023" := ∅ ]}.
Proof. compute_done. Qed.

Example pbc_ex : pbc_statistics frame_5382 =
  Ok {| dmr_per_month := frame_5382; mean_dmr := Fin (dec 9 2);
        moving_ranges := [0; 2; 5; 6]; average_moving_ranges := 6;
        UPL := Fin (dec 2046 100); LPL := Fin 0%Qc; URL := Fin (dec 1962 100) |}.
Proof. compute_done. Qed.

Example pbc_two_vendors :
  monthly_frame "ACME" 2023 (convert_dates parse_iso log_two_vendors) = [((2023, 1), 1%N)]
  ∧ monthly_frame "ACME" 2024 (convert_dates parse_iso log_two_vendors) = [].
Proof. split; reflexivity. Qed.

Example pbc_of_log :
  monthly_frame "ACME" 2023 (convert_dates parse_iso log_5382) = frame_5382
  ∧ (calculate_and_plot_pbc parse_iso "ACME" 2023 log_5382).2 = pbc_statistics frame_5382.
Proof. split; reflexivity. Qed.

Example vendor_table_ex :
  vendor_table [("2023-01-05", "ACME"); ("nan", "BOLT"); ("2023-02-01", "ACME")]
               [("2023-01-09", "ACME"); ("2023-01-10", "CORP")]
  = Ok [("ACME", {[ 2023 := PyFloat (Fin (Qc_of_Z 200)) ]})].
Proof. compute_done. Qed.

(** ** Arithmetic on the modelled floats *)






Lemma float_ltb_Fin (a b : Qc) : float_ltb (Fin a) (Fin b) = bool_decide (a < b)%Qc.
Proof. reflexivity. Qed.

(** ** The moving ranges *)

Lemma length_moving_ranges_of (counts : list N) :
  counts ≠ [] → length (moving_ranges_of counts) = length counts.
Proof.
  intros Hne. unfold moving_ranges_of. simpl.
  rewrite length_zip_with, length_take, length_drop.
  destruct counts as [|c counts]; [done|]. simpl. lia.
Qed.

Lemma moving_ranges_of_last (counts : list N) :
  ∃ r, list.last (moving_ranges_of counts) = Some r ∧ 0 ≤ r.
Proof.
  unfold moving_ranges_of.
  set (zs := zip_with _ _ _).
  assert (Hzs : Forall (λ z, 0 ≤ z) zs).
  { subst zs. apply list.Forall_forall. intros z Hz.
    apply elem_of_lookup_zip_with in Hz as (i & a & b & -> & _ & _). lia. }
  destruct (list.last (0 :: zs)) as [r|] eqn:Hlast.
  - exists r. split; [done|].
    apply last_Some_elem_of in Hlast.
    apply elem_of_cons in Hlast as [->|Hin]; [done|].
    by eapply list.Forall_forall in Hzs.
  - by apply last_None in Hlast.
Qed.

(** The engine on a frame with at least one month: every step succeeds. *)
Lemma pbc_statistics_nonempty (frame : list (year_month * N)) :
  frame ≠ [] →
  ∃ amr, list.last (moving_ranges_of frame.*2) = Some amr ∧ 0 ≤ amr ∧
    pbc_statistics frame =
    Ok {| dmr_per_month := frame;
          mean_dmr := series_mean frame.*2;
          moving_ranges := moving_ranges_of frame.*2;
          average_moving_ranges := amr;
          UPL := float_add (series_mean frame.*2) (float_mul (Fin c2_66) (float_of_Z amr));
          LPL := if float_ltb (float_sub (series_mean frame.*2)
                                         (float_mul (Fin c2_66) (float_of_Z amr)))
                              (Fin 0%Qc)
                 then Fin 0%Qc else series_mean frame.*2;
          URL := float_mul (float_of_Z amr) (Fin c3_27) |}.
Proof.
  intros Hne.
  destruct (moving_ranges_of_last frame.*2) as (amr & Hlast & Hamr).
  exists amr. split; [done|]. split; [done|].
  unfold pbc_statistics, set_column.
  rewrite decide_True.
  2:{ rewrite length_moving_ranges_of, length_fmap; [done|].
      by destruct frame. }
  simpl. unfold getitem_last. rewrite Hlast. reflexivity.
Qed.

Lemma pbc_statistics_empty : pbc_statistics [] = Raise ValueError.
Proof. reflexivity. Qed.


(** ** The PBC engine *)

(** C1. On a monthly frame whose counts are 5, 3, 8, 2 the engine returns
    the moving ranges 0, 2, 5, 6; its average moving range is the last of
    them, 6; the mean is 4.5; UPL is mean + 2.66 * 6 = 20.46; URL is
    6 * 3.27 = 19.62; the natural lower limit 4.5 - 15.96 = -11.46 is
    negative, so LPL is 0. *)
Theorem C1_pbc_5_3_8_2 (frame : list (year_month * N)) :
  frame.*2 = [5; 3; 8; 2]%N →
  ∃ chart, pbc_statistics frame = Ok chart
    ∧ moving_ranges chart = [0; 2; 5; 6]
    ∧ list.last (moving_ranges chart) = Some (average_moving_ranges chart)
    ∧ average_moving_ranges chart = 6
    ∧ mean_dmr chart = Fin (dec 45 10)
    ∧ UPL chart = float_add (mean_dmr chart) (float_mul (Fin c2_66) (float_of_Z 6))
    ∧ UPL chart = Fin (dec 2046 100)
    ∧ URL chart = float_mul (float_of_Z 6) (Fin c3_27)
    ∧ URL chart = Fin (dec 1962 100)
    ∧ float_sub (mean_dmr chart) (float_mul (Fin c2_66) (float_of_Z 6))
      = Fin (dec (-1146) 100)
    ∧ LPL chart = Fin 0%Qc.
Proof.
  intros Hcounts.
  assert (Hne : frame ≠ []) by (intros ->; discriminate).
  destruct (pbc_statistics_nonempty frame Hne) as (amr & Hlast & _ & Hrun).
  rewrite Hcounts in Hlast, Hrun.
  assert (amr = 6) as -> by (vm_compute in Hlast; congruence).
  eexists. split; [exact Hrun|]. simpl.
  repeat split; compute_done.
Qed.

Lemma C1_pbc_5_3_8_2_witness :
  ∃ chart, pbc_statistics frame_5382 = Ok chart
    ∧ moving_ranges chart = [0; 2; 5; 6]
    ∧ list.last (moving_ranges chart) = Some (average_moving_ranges chart)
    ∧ average_moving_ranges chart = 6
    ∧ mean_dmr chart = Fin (dec 45 10)
    ∧ UPL chart = float_add (mean_dmr chart) (float_mul (Fin c2_66) (float_of_Z 6))
    ∧ UPL chart = Fin (dec 2046 100)
    ∧ URL chart = float_mul (float_of_Z 6) (Fin c3_27)
    ∧ URL chart = Fin (dec 1962 100)
    ∧ float_sub (mean_dmr chart) (float_mul (Fin c2_66) (float_of_Z 6))
      = Fin (dec (-1146) 100)
    ∧ LPL chart = Fin 0%Qc.
Proof. apply (C1_pbc_5_3_8_2 frame_5382). reflexivity. Defined.





(** ** The frame the engine is given *)

Lemma to_datetime_idemp (parse_datetime : string → Datatypes.option timestamp)
    (c : date_cell) :
  to_datetime parse_datetime (to_datetime parse_datetime c) = to_datetime parse_datetime c.
Proof. destruct c as [s| |]; simpl; [destruct (parse_datetime s)|..]; done. Qed.

Lemma convert_dates_idemp (parse_datetime : string → Datatypes.option timestamp)
    (raw_df : list dmr_row) :
  convert_dates parse_datetime (convert_dates parse_datetime raw_df)
  = convert_dates parse_datetime raw_df.
Proof.
  unfold convert_dates. rewrite <- list_fmap_compose.
  apply list_fmap_ext. intros _ r _. simpl. by rewrite to_datetime_idemp.
Qed.

(** C9 (as the code has it). A call replaces the 'Date' column of the
    frame it is given by its datetime conversion, row by row; it adds no
    row and no column and leaves 'Vendor' as it was. The conversion is
    idempotent: a second call with the same vendor and year on the frame the
    first call left behind changes nothing more and produces the same
    chart. *)
Theorem C9_pbc_frame_effect (parse_datetime : string → Datatypes.option timestamp)
    (vendor : string) (year : Z) (raw_df : list dmr_row) :
  let out := calculate_and_plot_pbc parse_datetime vendor year raw_df in
  length out.1 = length raw_df
  ∧ Vendor <$> out.1 = Vendor <$> raw_df
  ∧ Date <$> out.1 = to_datetime parse_datetime <$> (Date <$> raw_df)
  ∧ Forall (λ r, ∀ s, Date r ≠ DateStr s) out.1
  ∧ calculate_and_plot_pbc parse_datetime vendor year out.1 = out.
Proof.
  simpl. unfold calculate_and_plot_pbc, convert_dates. simpl.
  split; [by rewrite length_fmap|].
  split; [by rewrite <- list_fmap_compose|].
  split; [by rewrite <- !list_fmap_compose|].
  split.
  - apply list.Forall_forall. intros r Hr s.
    apply list_elem_of_fmap in Hr as (r0 & -> & _). simpl.
    destruct (Date r0) as [s0| |]; simpl; [destruct (parse_datetime s0)|..]; done.
  - pose proof (convert_dates_idemp parse_datetime raw_df) as Hidem.
    unfold convert_dates in Hidem. by rewrite Hidem.
Qed.

(** C9, the claim as stated fails: the caller's frame held date strings
    before the call and holds timestamps after it. *)
Lemma C9_counterexample :
  (calculate_and_plot_pbc parse_iso "ACME" 2023 log_two_vendors).1 ≠ log_two_vendors
  ∧ Date <$> (calculate_and_plot_pbc parse_iso "ACME" 2023 log_two_vendors).1
    = [Timestamp {| ts_year := 2023; ts_month := 1; ts_day := 5 |};
       Timestamp {| ts_year := 2024; ts_month := 3; ts_day := 11 |}].
Proof. split; [discriminate|reflexivity]. Qed.

(** ** The temporal key extractor *)

Lemma first_seen_filter (P : string → Prop) `{!∀ x, Decision (P x)} (l : list string) :
  filter P (first_seen l) = first_seen (filter P l).
Proof.
  induction l as [|x l IH]; [done|]. simpl.
  destruct (decide (P x)) as [HP|HP].
  - rewrite !filter_cons_True by done. simpl. rewrite <- IH.
    rewrite !list_filter_filter. f_equal. apply list_filter_iff. naive_solver.
  - rewrite !filter_cons_False by done. rewrite <- IH.
    rewrite list_filter_filter. apply list_filter_iff. intros y. split; [naive_solver|].
    intros Hy. split; [done|]. by intros ->.
Qed.

(** The accumulating loop [if x not in acc: acc.append(x)] adds to [acc]
    the new elements in first-seen order. *)
Lemma foldl_append_new (acc l : list string) :
  foldl append_new acc l = acc ++ filter (λ y, y ∉ acc) (first_seen l).
Proof.
  revert acc. induction l as [|x l IH]; intros acc; simpl.
  - by rewrite app_nil_r.
  - rewrite IH. unfold append_new. destruct (decide (x ∈ acc)) as [Hin|Hin].
    + rewrite filter_cons_False by naive_solver. f_equal.
      rewrite list_filter_filter. apply list_filter_iff. intros y. split; [|naive_solver].
      intros Hy. split; [done|]. by intros ->.
    + rewrite filter_cons_True by done. rewrite <- app_assoc. simpl. do 2 f_equal.
      rewrite list_filter_filter. apply list_filter_iff. intros y.
      rewrite elem_of_app, list.elem_of_cons, list.elem_of_nil. naive_solver.
Qed.

Lemma unique_first_seen (col : list string) : unique col = first_seen col.
Proof.
  unfold unique. rewrite foldl_append_new. simpl.
  induction (first_seen col) as [|x l IH]; [done|].
  rewrite filter_cons_True by set_solver. by rewrite IH.
Qed.

Lemma first_seen_fmap_first_seen (f : string → string) (l : list string) :
  first_seen (f <$> first_seen l) = first_seen (f <$> l).
Proof.
  induction l as [|x l IH]; [done|]. csimpl. f_equal.
  rewrite <- IH, !(first_seen_filter (λ y, y ≠ f x)). f_equal. clear IH.
  induction (first_seen l) as [|y l' IHl]; [reflexivity|].
  destruct (decide (y = x)) as [->|Hne].
  - rewrite (filter_cons_False (λ y, y ≠ x)) by naive_solver.
    rewrite fmap_cons, (filter_cons_False (λ y, y ≠ f x)) by naive_solver. apply IHl.
  - rewrite (filter_cons_True (λ y, y ≠ x)) by done.
    rewrite !fmap_cons, !(filter_cons (λ y, y ≠ f x)). by rewrite IHl.
Qed.

Lemma elem_of_first_seen (l : list string) (x : string) : x ∈ first_seen l ↔ x ∈ l.
Proof.
  induction l as [|y l IH]; [done|]. simpl.
  rewrite !list.elem_of_cons, list_elem_of_filter, IH.
  destruct (decide (x = y)); naive_solver.
Qed.

Lemma NoDup_first_seen (l : list string) : NoDup (first_seen l).
Proof.
  induction l as [|x l IH]; simpl; [constructor|].
  constructor; [|by apply list.NoDup_filter].
  rewrite list_elem_of_filter. naive_solver.
Qed.

(** With 'Year', both scripts return the distinct year keys of the dates,
    the first four characters of each, in first-seen order. *)
Lemma generate_unique_list_Year (dates : list string) :
  Dashboard.generate_unique_list dates "Year" = Some (first_seen (year_key <$> dates))
  ∧ Excel.generate_unique_list dates "Year" = Some (first_seen (year_key <$> dates)).
Proof.
  assert (Hloop : foldl (λ unique_DMRs_years date_string,
                           append_new unique_DMRs_years (year_key date_string))
                        [] (unique dates)
                  = first_seen (year_key <$> dates)).
  { rewrite <- (foldl_fmap append_new [] (unique dates) year_key).
    fold (unique (year_key <$> unique dates)).
    by rewrite !unique_first_seen, first_seen_fmap_first_seen. }
  split; (apply (f_equal Some); exact Hloop).
Qed.

(** Every key the extractor returns is the key of some date, so the count
    the period counter stores under it is at least one. *)
Lemma count_year_positive (dates : list string) (year : string) :
  year ∈ first_seen (year_key <$> dates) → count_year dates year ≠ 0%N.
Proof.
  rewrite elem_of_first_seen, list_elem_of_fmap. intros (d & -> & Hin).
  unfold count_year.
  assert (Hd : d ∈ filter (λ d0, year_key d0 = year_key d) dates)
    by (by apply list_elem_of_filter).
  destruct (filter _ dates); [by apply list.elem_of_nil in Hd|]. simpl. lia.
Qed.

(** In the dashboard script the 'Month' branch takes the same four
    characters as the 'Year' branch. *)
Lemma generate_unique_list_Month_is_Year (dates : list string) :
  Dashboard.generate_unique_list dates "Month"
  = Dashboard.generate_unique_list dates "Year".
Proof. reflexivity. Qed.

Lemma generate_unique_list_Excel_Month (dates : list string) :
  Excel.generate_unique_list dates "Month" = None.
Proof. reflexivity. Qed.

(** C10, at a failing input: asked for the months of two dates of January
    and February 2023, the dashboard function returns the year key, and the
    Excel function returns nothing; the month keys of the two dates are
    "01" and "02". *)
Theorem C10_generate_unique_list_Month :
  Dashboard.generate_unique_list ["2023-01-05"; "2023-02-07"] "Month" = Some ["2023"]
  ∧ Excel.generate_unique_list ["2023-01-05"; "2023-02-07"] "Month" = None
  ∧ unique (month_key <$> ["2023-01-05"; "2023-02-07"]) = ["01"; "02"]
  ∧ Dashboard.generate_unique_list ["2023-01-05"; "2023-02-07"] "Year" = Some ["2023"].
Proof. repeat split; reflexivity. Qed.

(** ** Loops *)

(** A loop that keeps an invariant of the items visited so far, and whose
    body never raises under it, runs to the end. *)
Lemma for_in_inv {A S} (I : list A → S → Prop) (l : list A)
    (body : A → S → result S) (s0 : S) :
  I [] s0 →
  (∀ done x rest s, l = done ++ x :: rest → I done s →
     ∃ s', body x s = Ok s' ∧ I (done ++ [x]) s') →
  ∃ s, for_in l body s0 = Ok s ∧ I l s.
Proof.
  intros Hinit Hstep.
  assert (Hgen : ∀ rest done s, l = done ++ rest → I done s →
                   ∃ s', for_in rest body s = Ok s' ∧ I l s').
  { induction rest as [|x rest IH]; intros done s Hl HI; simpl.
    - rewrite app_nil_r in Hl. subst. eauto.
    - destruct (Hstep done x rest s Hl HI) as (s' & -> & HI'). simpl.
      apply (IH (done ++ [x])); [|done].
      by rewrite <- app_assoc. }
  by apply (Hgen l []).
Qed.

Lemma elem_of_keys `{Countable K} {V} (d : gmap K V) (k : K) :
  k ∈ keys d ↔ is_Some (d !! k).
Proof.
  unfold keys. rewrite list_elem_of_fmap. split.
  - intros ([k' v] & -> & Hin). apply elem_of_map_to_list in Hin. eauto.
  - intros [v Hv]. exists (k, v). split; [done|]. by apply elem_of_map_to_list.
Qed.

Lemma NoDup_keys `{Countable K} {V} (d : gmap K V) : NoDup (keys d).
Proof. apply NoDup_fst_map_to_list. Qed.

Lemma float_mul_PInf_100 : float_mul PInf (Fin c100) = PInf.
Proof. compute_done. Qed.

(** ** The year-level ratio *)

(** The year loop, when [dmrs_years] lists the keys of the DMR table: it
    returns, and each cell of the result is determined by the two counts. *)
Lemma year_ratio_spec (dmrs_years : list string) (DMRs_yrs_count PO_yrs_count : gmap string N) :
  (∀ year, year ∈ dmrs_years ↔ is_Some (DMRs_yrs_count !! year)) →
  ∃ ratios, DMR_PO_perc_yr dmrs_years DMRs_yrs_count PO_yrs_count = Ok ratios
    ∧ (∀ year, is_Some (ratios !! year) ↔ is_Some (DMRs_yrs_count !! year))
    ∧ (∀ year, ratios !! year = Some PyNone ↔
               is_Some (DMRs_yrs_count !! year) ∧ PO_yrs_count !! year = None)
    ∧ ∀ year dmr_count po_count,
        DMRs_yrs_count !! year = Some dmr_count →
        PO_yrs_count !! year = Some po_count →
        ratios !! year = Some (PyFloat
          (if decide (po_count = 0%N) then
             if decide (dmr_count = 0%N) then NaN else PInf
           else Fin (Qc_of_Z (Z.of_N dmr_count) / Qc_of_Z (Z.of_N po_count) * c100)%Qc)).
Proof.
  intros Hkeys.
  pose (cellf := λ year : string,
    match PO_yrs_count !! year with
    | None => PyNone
    | Some po_count =>
        PyFloat (float_mul
          (np_true_divide (default 0%N (DMRs_yrs_count !! year)) po_count) (Fin c100))
    end).
  destruct (for_in_inv
    (λ done (ratios : gmap string cell),
       ∀ year, ratios !! year = if decide (year ∈ done) then Some (cellf year) else None)
    dmrs_years
    (λ year DMR_PO_perc_yr,
       if decide (is_Some (PO_yrs_count !! year)) then
         dmr_count ← getitem DMRs_yrs_count year;
         po_count ← getitem PO_yrs_count year;
         let ratio := float_mul (np_true_divide dmr_count po_count) (Fin c100) in
         Ok (<[year := PyFloat ratio]> DMR_PO_perc_yr)
       else
         Ok (<[year := PyNone]> DMR_PO_perc_yr))
    ∅) as (ratios & Hrun & Hinv).
  { intros year. rewrite lookup_empty. by rewrite decide_False by set_solver. }
  { intros done x rest ratios Hl HI.
    assert (Hx : is_Some (DMRs_yrs_count !! x)).
    { apply Hkeys. rewrite Hl. set_solver. }
    destruct Hx as [dmr_count Hdmr].
    exists (<[x := cellf x]> ratios). split.
    - unfold cellf, getitem. rewrite Hdmr.
      destruct (PO_yrs_count !! x) as [po_count|] eqn:Hpo; simpl.
      + done.
      + done.
    - intros year. destruct (decide (year = x)) as [->|Hne].
      + rewrite lookup_insert_eq. by rewrite decide_True by set_solver.
      + rewrite lookup_insert_ne by done. rewrite HI.
        destruct (decide (year ∈ done)).
        * by rewrite decide_True by set_solver.
        * by rewrite decide_False by set_solver. }
  exists ratios. split; [exact Hrun|].
  assert (Hlook : ∀ year, ratios !! year =
            if decide (is_Some (DMRs_yrs_count !! year)) then Some (cellf year) else None).
  { intros year. rewrite Hinv.
    destruct (decide (year ∈ dmrs_years)) as [Hin|Hin].
    - by rewrite decide_True by (by apply Hkeys).
    - by rewrite decide_False by (by rewrite <- Hkeys). }
  split; [|split].
  - intros year. rewrite Hlook. destruct (decide _); [naive_solver|].
    split; [intros [? ?]; done|done].
  - intros year. rewrite Hlook. unfold cellf.
    destruct (decide _) as [Hd|Hd].
    + destruct (PO_yrs_count !! year); naive_solver.
    + naive_solver.
  - intros year dmr_count po_count Hdmr Hpo. rewrite Hlook.
    rewrite decide_True by eauto. unfold cellf. rewrite Hpo, Hdmr.
    change (default 0%N (Some dmr_count)) with dmr_count.
    unfold np_true_divide.
    destruct (decide (po_count = 0%N)); [destruct (decide (dmr_count = 0%N))|].
    + done.
    + by rewrite float_mul_PInf_100.
    + done.
Qed.




(** ** The month-level ratio *)

Lemma elem_of_sorted_common_keys {V W} (a : gmap string V) (b : gmap string W) (k : string) :
  k ∈ sorted_common_keys a b ↔ is_Some (a !! k) ∧ is_Some (b !! k).
Proof.
  unfold sorted_common_keys. rewrite merge_sort_Permutation.
  rewrite elem_of_elements, elem_of_intersection, !elem_of_dom. done.
Qed.

(** The inner loop over the months of one year. *)
Lemma month_loop (DMRs_month_count PO_month_count : gmap string (gmap string N))
    (year : string) (dm pm : gmap string N) :
  DMRs_month_count !! year = Some dm →
  PO_month_count !! year = Some pm →
  (∀ month, is_Some (pm !! month) → is_Some (dm !! month)) →
  ∃ year_ratio : gmap string float,
    for_in (keys pm) (month_body DMRs_month_count PO_month_count year) ∅ = Ok year_ratio
    ∧ ∀ month, year_ratio !! month =
        match pm !! month, dm !! month with
        | Some po_count, Some dmr_count =>
            if decide (po_count = 0%N) then None
            else Some (Fin (Qc_of_Z (Z.of_N dmr_count) / Qc_of_Z (Z.of_N po_count) * c100)%Qc)
        | _, _ => None
        end.
Proof.
  intros Hdm Hpm Hcover.
  pose (spec := λ month : string,
    match pm !! month, dm !! month with
    | Some po_count, Some dmr_count =>
        if decide (po_count = 0%N) then None
        else Some (Fin (Qc_of_Z (Z.of_N dmr_count) / Qc_of_Z (Z.of_N po_count) * c100)%Qc)
    | _, _ => None
    end).
  destruct (for_in_inv
    (λ done (year_ratio : gmap string float),
       ∀ month, year_ratio !! month = if decide (month ∈ done) then spec month else None)
    (keys pm) (month_body DMRs_month_count PO_month_count year) ∅)
    as (year_ratio & Hrun & Hinv).
  { intros month. rewrite lookup_empty. by rewrite decide_False by set_solver. }
  { intros done x rest year_ratio Hl HI.
    assert (Hx : is_Some (pm !! x)).
    { apply elem_of_keys. rewrite Hl. set_solver. }
    destruct Hx as [po_count Hpo].
    destruct (Hcover x) as [dmr_count Hdmr]; [eauto|].
    assert (Hspec : spec x =
      if decide (po_count = 0%N) then None
      else Some (Fin (Qc_of_Z (Z.of_N dmr_count) / Qc_of_Z (Z.of_N po_count) * c100)%Qc)).
    { unfold spec. by rewrite Hpo, Hdmr. }
    exists (if decide (po_count = 0%N) then year_ratio
            else <[x := Fin (Qc_of_Z (Z.of_N dmr_count) / Qc_of_Z (Z.of_N po_count) * c100)%Qc]>
                   year_ratio).
    split.
    - unfold month_body, getitem. rewrite Hpm. simpl. rewrite Hpo. simpl.
      rewrite Hdm. simpl. rewrite Hdmr. simpl. unfold np_true_divide.
      destruct (decide (po_count = 0%N)) as [->|Hnz]; simpl; [done|].
      by rewrite decide_True by done.
    - intros month. destruct (decide (month = x)) as [->|Hne].
      + rewrite (decide_True (P := x ∈ done ++ [x])) by set_solver. rewrite Hspec.
        destruct (decide (po_count = 0%N)).
        * rewrite HI. by destruct (decide (x ∈ done)).
        * by rewrite lookup_insert_eq.
      + assert (Hlook : (if decide (po_count = 0%N) then year_ratio
                         else <[x := Fin (Qc_of_Z (Z.of_N dmr_count)
                                          / Qc_of_Z (Z.of_N po_count) * c100)%Qc]>
                                year_ratio) !! month = year_ratio !! month).
        { destruct (decide (po_count = 0%N)); [done|]. by rewrite lookup_insert_ne. }
        rewrite Hlook, HI.
        destruct (decide (month ∈ done)).
        * by rewrite decide_True by set_solver.
        * by rewrite decide_False by set_solver. }
  exists year_ratio. split; [exact Hrun|].
  intros month. rewrite Hinv.
  destruct (decide (month ∈ keys pm)) as [Hin|Hin]; [done|].
  rewrite elem_of_keys in Hin.
  destruct (pm !! month) eqn:Hm; [|done]. destruct Hin. eauto.
Qed.

(** The month loop on two tables of which the first has every month the
    second has: it returns; the years of the result are the common years;
    a month has an entry exactly when its PO count is not zero. *)
Lemma month_ratio_spec (DMRs_month_count PO_month_count : gmap string (gmap string N)) :
  (∀ year dm pm month,
     DMRs_month_count !! year = Some dm → PO_month_count !! year = Some pm →
     is_Some (pm !! month) → is_Some (dm !! month)) →
  ∃ ratios, DMR_PO_perc_month DMRs_month_count PO_month_count = Ok ratios
    ∧ (∀ year, is_Some (ratios !! year) ↔
               is_Some (DMRs_month_count !! year) ∧ is_Some (PO_month_count !! year))
    ∧ ∀ year dm pm month dmr_count po_count,
        DMRs_month_count !! year = Some dm → PO_month_count !! year = Some pm →
        dm !! month = Some dmr_count → pm !! month = Some po_count →
        ratios !! year ≫= (λ year_ratio, year_ratio !! month) =
          if decide (po_count = 0%N) then None
          else Some (Fin (Qc_of_Z (Z.of_N dmr_count) / Qc_of_Z (Z.of_N po_count) * c100)%Qc).
Proof.
  intros Hcover.
  destruct (for_in_inv
    (λ done (ratios : gmap string (gmap string float)),
       (∀ year, is_Some (ratios !! year) ↔ year ∈ done)
       ∧ ∀ year year_ratio dm pm,
           ratios !! year = Some year_ratio →
           DMRs_month_count !! year = Some dm → PO_month_count !! year = Some pm →
           ∀ month, year_ratio !! month =
             match pm !! month, dm !! month with
             | Some po_count, Some dmr_count =>
                 if decide (po_count = 0%N) then None
                 else Some (Fin (Qc_of_Z (Z.of_N dmr_count)
                                 / Qc_of_Z (Z.of_N po_count) * c100)%Qc)
             | _, _ => None
             end)
    (sorted_common_keys DMRs_month_count PO_month_count)
    (λ year DMR_PO_perc_month,
       po_year ← getitem PO_month_count year;
       year_ratio ← for_in (keys po_year)
                      (month_body DMRs_month_count PO_month_count year) ∅;
       Ok (<[year := year_ratio]> DMR_PO_perc_month))
    ∅) as (ratios & Hrun & Hdom & Hval).
  { split.
    - intros year. rewrite lookup_empty. split; [intros [? ?]; done|set_solver].
    - intros year year_ratio dm pm Hlook. by rewrite lookup_empty in Hlook. }
  { intros done x rest ratios Hl [HIdom HIval].
    assert (Hx : x ∈ sorted_common_keys DMRs_month_count PO_month_count).
    { rewrite Hl. set_solver. }
    apply elem_of_sorted_common_keys in Hx as [[dm Hdm] [pm Hpm]].
    destruct (month_loop DMRs_month_count PO_month_count x dm pm Hdm Hpm)
      as (year_ratio & Hinner & Hspec).
    { intros month. by apply (Hcover x dm pm). }
    exists (<[x := year_ratio]> ratios). split.
    - unfold getitem. rewrite Hpm. simpl. rewrite Hinner. done.
    - split.
      + intros year. destruct (decide (year = x)) as [->|Hne].
        * rewrite lookup_insert_eq. split; [set_solver|eauto].
        * rewrite lookup_insert_ne by done. rewrite HIdom. set_solver.
      + intros year yr dm' pm' Hlook Hdm' Hpm'.
        destruct (decide (year = x)) as [->|Hne].
        * rewrite lookup_insert_eq in Hlook. simplify_eq. exact Hspec.
        * rewrite lookup_insert_ne in Hlook by done. by eapply HIval. }
  exists ratios. split; [exact Hrun|]. split.
  - intros year. rewrite Hdom. apply elem_of_sorted_common_keys.
  - intros year dm pm month dmr_count po_count Hdm Hpm Hdmr Hpo.
    destruct (ratios !! year) as [year_ratio|] eqn:Hlook.
    + simpl. rewrite (Hval year year_ratio dm pm Hlook Hdm Hpm month).
      by rewrite Hpo, Hdmr.
    + exfalso. assert (Hsome : is_Some (ratios !! year)).
      { apply Hdom, elem_of_sorted_common_keys. eauto. }
      rewrite Hlook in Hsome. by destruct Hsome.
Qed.

(** C5. When the DMR month table has every month the PO month table has
    (both are built over the same twelve months), the loop returns a table
    whose years are the years common to the two tables; in such a year a
    month of the PO table has the entry (DMR count / PO count) * 100 exactly
    when its PO count is not zero, and has no entry at all, not a null,
    when its PO count is zero. *)
Theorem C5_month_ratio (DMRs_month_count PO_month_count : gmap string (gmap string N)) :
  (∀ year dm pm month,
     DMRs_month_count !! year = Some dm → PO_month_count !! year = Some pm →
     is_Some (pm !! month) → is_Some (dm !! month)) →
  ∃ ratios, DMR_PO_perc_month DMRs_month_count PO_month_count = Ok ratios
    ∧ (∀ year, is_Some (ratios !! year) ↔
               is_Some (DMRs_month_count !! year) ∧ is_Some (PO_month_count !! year))
    ∧ ∀ year dm pm month dmr_count po_count,
        DMRs_month_count !! year = Some dm → PO_month_count !! year = Some pm →
        dm !! month = Some dmr_count → pm !! month = Some po_count →
        ratios !! year ≫= (λ year_ratio, year_ratio !! month) =
          if decide (po_count = 0%N) then None
          else Some (Fin (Qc_of_Z (Z.of_N dmr_count) / Qc_of_Z (Z.of_N po_count) * c100)%Qc).
Proof. apply month_ratio_spec. Qed.

Lemma C5_month_ratio_witness :
  ∃ ratios,
    DMR_PO_perc_month {[ "2023" := {[ "01" := 5%N; "02" := 3%N ]} ]}
                      {[ "2023" := {[ "01" := 0%N; "02" := 6%N ]} ]} = Ok ratios
    ∧ ratios !! "2023" ≫= (λ year_ratio, year_ratio !! "01") = None
    ∧ ratios !! "2023" ≫= (λ year_ratio, year_ratio !! "02")
      = Some (Fin (Qc_of_Z 3 / Qc_of_Z 6 * c100)%Qc).
Proof.
  destruct (C5_month_ratio {[ "2023" := {[ "01" := 5%N; "02" := 3%N ]} ]}
                           {[ "2023" := {[ "01" := 0%N; "02" := 6%N ]} ]})
    as (ratios & Hrun & _ & Hval).
  - intros year dm pm month Hdm Hpm Hmonth.
    destruct (decide (year = "2023")) as [->|Hne].
    + rewrite lookup_singleton_eq in Hdm, Hpm. simplify_eq.
      destruct (decide (month = "01")) as [->|H01]; [by eexists|].
      destruct (decide (month = "02")) as [->|H02]; [by eexists|].
      rewrite lookup_insert_ne, lookup_singleton_ne in Hmonth by done.
      by destruct Hmonth.
    + by rewrite lookup_singleton_ne in Hdm.
  - exists ratios. split; [exact Hrun|]. split.
    + apply (Hval "2023" {[ "01" := 5%N; "02" := 3%N ]} {[ "01" := 0%N; "02" := 6%N ]}
                  "01" 5%N 0%N); reflexivity.
    + apply (Hval "2023" {[ "01" := 5%N; "02" := 3%N ]} {[ "01" := 0%N; "02" := 6%N ]}
                  "02" 3%N 6%N); reflexivity.
Defined.

(** The tables the period counter builds have, under every year, exactly
    the months it was asked for. *)
Lemma foldl_insert_lookup `{Countable K} {V} (f : K → V) (l : list K) (m0 : gmap K V) (k : K) :
  foldl (λ m x, <[x := f x]> m) m0 l !! k
  = if decide (k ∈ l) then Some (f k) else m0 !! k.
Proof.
  revert m0. induction l as [|x l IH]; intros m0.
  - by rewrite (decide_False (P := k ∈ [])) by set_solver.
  - change (foldl (λ m x, <[x := f x]> m) (<[x := f x]> m0) l !! k
            = if decide (k ∈ x :: l) then Some (f k) else m0 !! k).
    rewrite IH. destruct (decide (k ∈ l)) as [Hin|Hin].
    + by rewrite (decide_True (P := k ∈ x :: l)) by set_solver.
    + destruct (decide (k = x)) as [->|Hne].
      * rewrite lookup_insert_eq.
        by rewrite (decide_True (P := x ∈ x :: l)) by set_solver.
      * rewrite lookup_insert_ne by done.
        by rewrite (decide_False (P := k ∈ x :: l)) by set_solver.
Qed.

Lemma generate_count_dict_Month_lookup (dates unique_list : list string)
    (d : gmap string (gmap string N)) (yr month : string) (month_counts : gmap string N) :
  generate_count_dict dates "Month" unique_list = Some (MonthCounts d) →
  d !! yr = Some month_counts →
  yr ∈ unique (year_key <$> dates)
  ∧ month_counts !! month =
      if decide (month ∈ unique_list) then Some (count_year_month dates yr month) else None.
Proof.
  unfold generate_count_dict. simpl. intros Hd Hyr. simplify_eq.
  rewrite (foldl_insert_lookup
             (λ yr, foldl (λ month_counts month,
                             <[month := count_year_month dates yr month]> month_counts)
                          ∅ unique_list)) in Hyr.
  destruct (decide (yr ∈ _)) as [Hin|Hin]; [|by rewrite lookup_empty in Hyr].
  split; [done|]. simplify_eq.
  rewrite (foldl_insert_lookup (λ month, count_year_month dates yr month)).
  by rewrite lookup_empty.
Qed.

(** So the month loop never raises on the tables of the two logs. *)
Lemma DMR_PO_perc_month_of_logs (DMR_dates PO_dates : list string)
    (DMRs_month_count PO_month_count : gmap string (gmap string N)) :
  generate_count_dict DMR_dates "Month" unique_months = Some (MonthCounts DMRs_month_count) →
  generate_count_dict PO_dates "Month" unique_months = Some (MonthCounts PO_month_count) →
  ∃ ratios, DMR_PO_perc_month DMRs_month_count PO_month_count = Ok ratios.
Proof.
  intros HD HP.
  destruct (month_ratio_spec DMRs_month_count PO_month_count) as (ratios & Hrun & _).
  - intros year dm pm month Hdm Hpm [po Hpo].
    destruct (generate_count_dict_Month_lookup _ _ _ year month dm HD Hdm) as [_ Hdmm].
    destruct (generate_count_dict_Month_lookup _ _ _ year month pm HP Hpm) as [_ Hpmm].
    rewrite Hpo in Hpmm. rewrite Hdmm.
    destruct (decide (month ∈ unique_months)); [eauto|done].
  - eauto.
Qed.

(** ** The vendor-level ratio *)

(** The inner loop over the years of one vendor, started on a dictionary
    in which the vendor has an empty row. *)
Lemma vendor_loop (vendor_PO_counts : gmap string (gmap Z N)) (vendor : string)
    (dmr_counts_per_year : gmap Z N) (ratios0 : gmap string (gmap Z cell)) :
  ratios0 !! vendor = Some ∅ →
  ∃ row : gmap Z cell,
    for_in (keys dmr_counts_per_year)
           (vendor_body vendor_PO_counts vendor dmr_counts_per_year) ratios0
    = Ok (<[vendor := row]> ratios0)
    ∧ ∀ year, row !! year =
        match dmr_counts_per_year !! year with
        | None => None
        | Some dmr_count =>
            match vendor_PO_counts !! vendor ≫= (λ po_years, po_years !! year) with
            | None => Some PyNone
            | Some po_count =>
                if decide (po_count = 0%N) then None
                else Some (PyFloat (Fin (Qc_of_Z (Z.of_N dmr_count)
                                         / Qc_of_Z (Z.of_N po_count) * c100)%Qc))
            end
        end.
Proof.
  intros Hrow0.
  pose (spec := λ year : Z,
    match dmr_counts_per_year !! year with
    | None => None
    | Some dmr_count =>
        match vendor_PO_counts !! vendor ≫= (λ po_years, po_years !! year) with
        | None => Some PyNone
        | Some po_count =>
            if decide (po_count = 0%N) then None
            else Some (PyFloat (Fin (Qc_of_Z (Z.of_N dmr_count)
                                     / Qc_of_Z (Z.of_N po_count) * c100)%Qc))
        end
    end).
  destruct (for_in_inv
    (λ done (ratios : gmap string (gmap Z cell)),
       ∃ row : gmap Z cell, ratios = <[vendor := row]> ratios0
         ∧ ∀ year, row !! year = if decide (year ∈ done) then spec year else None)
    (keys dmr_counts_per_year)
    (vendor_body vendor_PO_counts vendor dmr_counts_per_year) ratios0)
    as (ratios & Hrun & row & -> & Hrow).
  { exists ∅. split; [by rewrite insert_id|].
    intros year. rewrite lookup_empty.
    by rewrite (decide_False (P := year ∈ [])) by set_solver. }
  { intros done x rest ratios Hl (row & -> & HI).
    assert (Hx : is_Some (dmr_counts_per_year !! x)).
    { apply elem_of_keys. rewrite Hl. set_solver. }
    destruct Hx as [dmr_count Hdmr].
    assert (Hkeep : ∀ row' : gmap Z cell,
              (∀ year, year ≠ x → row' !! year = row !! year) → row' !! x = spec x →
              ∀ year, row' !! year = if decide (year ∈ done ++ [x]) then spec year else None).
    { intros row' Hother Hatx year. destruct (decide (year = x)) as [->|Hne].
      - by rewrite (decide_True (P := x ∈ done ++ [x])) by set_solver.
      - rewrite Hother, HI by done. destruct (decide (year ∈ done)).
        + by rewrite (decide_True (P := year ∈ done ++ [x])) by set_solver.
        + by rewrite (decide_False (P := year ∈ done ++ [x])) by set_solver. }
    assert (Hassign : ∀ c : cell, spec x = Some c →
              ∃ s', (row0 ← getitem (<[vendor := row]> ratios0) vendor;
                     Ok (<[vendor := <[x := c]> row0]> (<[vendor := row]> ratios0))) = Ok s'
                ∧ ∃ row' : gmap Z cell, s' = <[vendor := row']> ratios0
                    ∧ ∀ year, row' !! year =
                        if decide (year ∈ done ++ [x]) then spec year else None).
    { intros c Hc. eexists. split.
      - unfold getitem. rewrite lookup_insert_eq. simpl. reflexivity.
      - exists (<[x := c]> row). split; [by rewrite insert_insert_eq|].
        apply Hkeep.
        + intros year Hne. by rewrite lookup_insert_ne.
        + by rewrite lookup_insert_eq. }
    unfold vendor_body.
    destruct (vendor_PO_counts !! vendor ≫= (λ po_years, po_years !! x))
      as [po_count|] eqn:Hpo.
    - destruct (vendor_PO_counts !! vendor) as [po_years|] eqn:Hpv; [|done].
      simpl in Hpo.
      assert (Hg1 : getitem vendor_PO_counts vendor = Ok po_years).
      { unfold getitem. by rewrite Hpv. }
      assert (Hg2 : getitem po_years x = Ok po_count).
      { unfold getitem. by rewrite Hpo. }
      assert (Hg3 : getitem dmr_counts_per_year x = Ok dmr_count).
      { unfold getitem. by rewrite Hdmr. }
      rewrite Hg1. simpl. rewrite Hg2. simpl.
      destruct (decide (po_count = 0%N)) as [Hz|Hnz].
      + rewrite decide_False by (intros Hn; by apply Hn).
        eexists. split; [reflexivity|]. exists row. split; [done|].
        apply Hkeep; [done|]. rewrite HI. unfold spec. rewrite Hdmr. simpl.
        rewrite Hpo. rewrite !(decide_True (P := po_count = 0%N)) by done.
        by destruct (decide (x ∈ done)).
      + rewrite decide_True by done. rewrite Hg3. simpl.
        unfold py_true_divide. rewrite decide_False by done. simpl.
        apply Hassign. unfold spec. rewrite Hdmr. simpl. rewrite Hpo.
        by rewrite decide_False by done.
    - apply Hassign. unfold spec. by rewrite Hdmr, Hpo. }
  exists row. split; [exact Hrun|].
  intros year. rewrite Hrow.
  destruct (decide (year ∈ keys dmr_counts_per_year)) as [Hin|Hin]; [done|].
  rewrite elem_of_keys in Hin. unfold spec.
  destruct (dmr_counts_per_year !! year); [|done]. destruct Hin. eauto.
Qed.

(** The vendor loop never raises; it gives every vendor of the DMR table a
    row, and describes each cell of the row. *)
Lemma vendor_ratio_spec (vendor_DMR_counts vendor_PO_counts : gmap string (gmap Z N)) :
  ∃ ratios, vendor_SQR_ratios vendor_DMR_counts vendor_PO_counts = Ok ratios
    ∧ (∀ vendor, is_Some (ratios !! vendor) ↔ is_Some (vendor_DMR_counts !! vendor))
    ∧ ∀ vendor row dmr_counts_per_year year,
        ratios !! vendor = Some row →
        vendor_DMR_counts !! vendor = Some dmr_counts_per_year →
        row !! year =
          match dmr_counts_per_year !! year with
          | None => None
          | Some dmr_count =>
              match vendor_PO_counts !! vendor ≫= (λ po_years, po_years !! year) with
              | None => Some PyNone
              | Some po_count =>
                  if decide (po_count = 0%N) then None
                  else Some (PyFloat (Fin (Qc_of_Z (Z.of_N dmr_count)
                                           / Qc_of_Z (Z.of_N po_count) * c100)%Qc))
              end
          end.
Proof.
  destruct (for_in_inv
    (λ (done : list (string * gmap Z N)) (ratios : gmap string (gmap Z cell)),
       (∀ vendor, is_Some (ratios !! vendor) ↔ vendor ∈ done.*1)
       ∧ ∀ vendor row dmr_counts_per_year year,
           ratios !! vendor = Some row →
           vendor_DMR_counts !! vendor = Some dmr_counts_per_year →
           row !! year =
             match dmr_counts_per_year !! year with
             | None => None
             | Some dmr_count =>
                 match vendor_PO_counts !! vendor ≫= (λ po_years, po_years !! year) with
                 | None => Some PyNone
                 | Some po_count =>
                     if decide (po_count = 0%N) then None
                     else Some (PyFloat (Fin (Qc_of_Z (Z.of_N dmr_count)
                                              / Qc_of_Z (Z.of_N po_count) * c100)%Qc))
                 end
             end)
    (map_to_list vendor_DMR_counts)
    (λ item ratios,
       let vendor := item.1 in
       let dmr_counts_per_year := item.2 in
       let ratios :=
         if decide (is_Some (ratios !! vendor)) then ratios
         else <[vendor := ∅]> ratios in
       for_in (keys dmr_counts_per_year)
              (vendor_body vendor_PO_counts vendor dmr_counts_per_year) ratios)
    ∅) as (ratios & Hrun & Hdom & Hval).
  { split.
    - intros vendor. rewrite lookup_empty. split; [intros [? ?]; done|set_solver].
    - intros vendor row dc year Hlook. by rewrite lookup_empty in Hlook. }
  { intros done [vendor dc] rest ratios Hl [HIdom HIval]. simpl.
    assert (Hnodup : NoDup (done.*1 ++ vendor :: rest.*1)).
    { pose proof (NoDup_fst_map_to_list vendor_DMR_counts) as Hnd.
      rewrite Hl in Hnd. by rewrite fmap_app, fmap_cons in Hnd. }
    assert (Hfresh : vendor ∉ done.*1).
    { apply list.NoDup_app in Hnodup as (_ & Hdisj & _).
      intros Hin. apply (Hdisj vendor Hin). set_solver. }
    assert (Hdc : vendor_DMR_counts !! vendor = Some dc).
    { apply elem_of_map_to_list. rewrite Hl. set_solver. }
    assert (Hnone : ratios !! vendor = None).
    { destruct (ratios !! vendor) eqn:Hlook; [|done].
      destruct Hfresh. apply HIdom. eauto. }
    rewrite decide_False by (rewrite Hnone; intros [? ?]; done).
    destruct (vendor_loop vendor_PO_counts vendor dc (<[vendor := ∅]> ratios))
      as (row & Hinner & Hrow).
    { by rewrite lookup_insert_eq. }
    rewrite insert_insert_eq in Hinner.
    exists (<[vendor := row]> ratios). split; [exact Hinner|]. split.
    - intros v. rewrite fmap_app, elem_of_app. simpl.
      destruct (decide (v = vendor)) as [->|Hne].
      + rewrite lookup_insert_eq. split; [set_solver|eauto].
      + rewrite lookup_insert_ne by done. rewrite HIdom. set_solver.
    - intros v row' dc' year Hlook Hdc'.
      destruct (decide (v = vendor)) as [->|Hne].
      + rewrite lookup_insert_eq in Hlook. simplify_eq. apply Hrow.
      + rewrite lookup_insert_ne in Hlook by done. by eapply HIval. }
  exists ratios. split; [exact Hrun|]. split; [|exact Hval].
  intros vendor. rewrite Hdom, list_elem_of_fmap. split.
  - intros ([v dc] & -> & Hin). apply elem_of_map_to_list in Hin. eauto.
  - intros [dc Hdc]. exists (vendor, dc). split; [done|].
    by apply elem_of_map_to_list.
Qed.



(** ** The rows of the vendor table *)

Lemma vendor_counts_is_Some (rows : list (Z * string * N)) (vendor : string) :
  is_Some (vendor_counts rows !! vendor) ↔ ∃ row, row ∈ rows ∧ row.1.2 = vendor.
Proof.
  unfold vendor_counts.
  assert (Hgen : ∀ counts0 : gmap string (gmap Z N),
    is_Some (foldl (λ counts row,
                      let year := row.1.1 in
                      let vendor := row.1.2 in
                      let count := row.2 in
                      let counts :=
                        if decide (is_Some (counts !! vendor)) then counts
                        else <[vendor := ∅]> counts in
                      alter (λ per_year, <[year := count]> per_year) vendor counts)
                   counts0 rows !! vendor)
    ↔ is_Some (counts0 !! vendor) ∨ ∃ row, row ∈ rows ∧ row.1.2 = vendor).
  { induction rows as [|row rows IH]; intros counts0; simpl.
    - split; [eauto|]. intros [?|(row & Hin & _)]; [done|]. by apply list.elem_of_nil in Hin.
    - rewrite IH, lookup_alter_is_Some.
      destruct (decide (is_Some (counts0 !! row.1.2))) as [Hs|Hs].
      + split.
        * intros [?|(r & Hin & Hr)]; [by left|right]. exists r. set_solver.
        * intros [?|(r & Hin & Hr)]; [by left|].
          apply elem_of_cons in Hin as [->|Hin]; [left; by rewrite <- Hr|right; eauto].
      + destruct (decide (row.1.2 = vendor)) as [Heq|Hne].
        * rewrite Heq, lookup_insert_eq. split; [|eauto].
          intros _. right. exists row. set_solver.
        * rewrite lookup_insert_ne by done. split.
          -- intros [?|(r & Hin & Hr)]; [by left|right]. exists r. set_solver.
          -- intros [?|(r & Hin & Hr)]; [by left|].
             apply elem_of_cons in Hin as [->|Hin]; [done|right; eauto]. }
  rewrite Hgen, lookup_empty. split.
  - intros [[? ?]|?]; done.
  - eauto.
Qed.

Lemma groupby_size_vendor (df : list (Z * string)) (vendor : string) :
  (∃ row, row ∈ groupby_size df ∧ row.1.2 = vendor) ↔ ∃ year, (year, vendor) ∈ df.
Proof.
  unfold groupby_size. split.
  - intros (row & Hin & <-).
    apply list_elem_of_fmap in Hin as ([y v] & -> & Hin).
    rewrite merge_sort_Permutation, elem_of_remove_dups in Hin. eauto.
  - intros [year Hin]. eexists. split.
    + apply list_elem_of_fmap. exists (year, vendor). split; [reflexivity|].
      by rewrite merge_sort_Permutation, elem_of_remove_dups.
    + done.
Qed.

Lemma with_int_year_vendor (df : list record) (vendor : string) :
  (∃ year, (year, vendor) ∈ with_int_year df)
  ↔ ∃ date, (date, vendor) ∈ df ∧ isdigit (year_key date) = true.
Proof.
  unfold with_int_year. split.
  - intros (year & Hin).
    apply list_elem_of_fmap in Hin as ([date v] & Heq & Hin).
    apply list_elem_of_filter in Hin as [Hdigit Hin]. simpl in *. simplify_eq. eauto.
  - intros (date & Hin & Hdigit). exists (int_of_string (year_key date)).
    apply list_elem_of_fmap. exists (date, vendor). split; [done|].
    by apply list_elem_of_filter.
Qed.

(** The vendor table of two logs: it is always produced; no vendor has two
    rows; the vendors with a row are those of the DMR log that have a
    record whose date starts with a year in digits. *)
Lemma vendor_table_rows (DMR_df supplier_PO_df : list record) :
  ∃ rows, vendor_table DMR_df supplier_PO_df = Ok rows
    ∧ NoDup rows.*1
    ∧ ∀ vendor, vendor ∈ rows.*1 ↔
        ∃ date, (date, vendor) ∈ DMR_df ∧ isdigit (year_key date) = true.
Proof.
  unfold vendor_table.
  destruct (vendor_ratio_spec (vendor_counts (groupby_size (with_int_year DMR_df)))
              (vendor_counts (groupby_size (with_int_year supplier_PO_df))))
    as (ratios & -> & Hdom & _).
  simpl. eexists. split; [reflexivity|]. unfold df_vendor_SQR_ratios. split.
  - apply NoDup_fst_map_to_list.
  - intros vendor.
    rewrite <- with_int_year_vendor, <- groupby_size_vendor, <- vendor_counts_is_Some.
    rewrite <- Hdom. apply (elem_of_keys ratios vendor).
Qed.

(** C7 (as the code has it). The vendor table has one row per vendor of
    the DMR log that has at least one record whose date starts with a year
    in digits, and no other row: a vendor that only the PO log knows gets no
    row, and neither does a DMR vendor all of whose records were filtered
    out for want of a numeric year. *)
Theorem C7_vendor_rows (DMR_df supplier_PO_df : list record) :
  ∃ rows, vendor_table DMR_df supplier_PO_df = Ok rows
    ∧ NoDup rows.*1
    ∧ (∀ vendor, vendor ∈ rows.*1 ↔
         ∃ date, (date, vendor) ∈ DMR_df ∧ isdigit (year_key date) = true)
    ∧ ∀ vendor, (∀ date, (date, vendor) ∉ DMR_df) → vendor ∉ rows.*1.
Proof.
  destruct (vendor_table_rows DMR_df supplier_PO_df) as (rows & Hrun & Hnd & Hrows).
  exists rows. split; [exact Hrun|]. split; [exact Hnd|]. split; [exact Hrows|].
  intros vendor Hnot Hin. apply Hrows in Hin as (date & Hin & _).
  by apply (Hnot date).
Qed.

(** C7, the claim as stated fails: ACME is a vendor of the DMR log, its
    only record has no date, and the table has no row for it. *)
Lemma C7_counterexample :
  ("NaT", "ACME") ∈ [("NaT", "ACME"); ("2023-01-05", "BOLT")]
  ∧ vendor_table [("NaT", "ACME"); ("2023-01-05", "BOLT")] [("2023-02-01", "BOLT")]
    = Ok [("BOLT", {[ 2023 := PyFloat (Fin (Qc_of_Z 100)) ]})].
Proof. split; [set_solver|compute_done]. Qed.

(** ** What is presented *)



Lemma float_ltb_asym (x y : float) : float_ltb x y = true → float_ltb y x = false.
Proof.
  destruct x as [a| | |], y as [b| | |]; simpl; try done.
  intros Hlt%bool_decide_eq_true. apply bool_decide_eq_false.
  by apply Qcle_not_lt, Qclt_le_weak.
Qed.

Lemma bar_ge_total : Total bar_ge.
Proof.
  intros a b. unfold bar_ge, float_ge.
  destruct (float_ltb a.2 b.2) eqn:Hab; [right|left; done].
  by apply float_ltb_asym.
Qed.






(** ** The ratio loops on the tables of two logs *)

(** On the year tables the period counter builds from two logs, a year the
    PO table holds has a count of at least one, so every ratio is null or
    finite. *)
Lemma year_ratio_of_logs (DMR_dates PO_dates dmrs_years PO_years : list string)
    (DMRs_yrs_count PO_yrs_count : gmap string N) :
  Dashboard.generate_unique_list DMR_dates "Year" = Some dmrs_years →
  Dashboard.generate_unique_list PO_dates "Year" = Some PO_years →
  generate_count_dict DMR_dates "Year" dmrs_years = Some (YearCounts DMRs_yrs_count) →
  generate_count_dict PO_dates "Year" PO_years = Some (YearCounts PO_yrs_count) →
  ∃ ratios, DMR_PO_perc_yr dmrs_years DMRs_yrs_count PO_yrs_count = Ok ratios
    ∧ ∀ year c, ratios !! year = Some c → c = PyNone ∨ ∃ q, c = PyFloat (Fin q).
Proof.
  intros Hdy Hpy HD HP.
  destruct (generate_unique_list_Year DMR_dates) as [Hdy' _].
  destruct (generate_unique_list_Year PO_dates) as [Hpy' _].
  rewrite Hdy' in Hdy. rewrite Hpy' in Hpy. simplify_eq.
  unfold generate_count_dict in HD, HP. simpl in HD, HP. simplify_eq.
  set (dmrs_years := first_seen (year_key <$> DMR_dates)).
  set (PO_years := first_seen (year_key <$> PO_dates)).
  set (D := foldl _ ∅ dmrs_years). set (P := foldl _ ∅ PO_years).
  assert (HDl : ∀ year, D !! year =
            if decide (year ∈ dmrs_years) then Some (count_year DMR_dates year) else None).
  { intros year. subst D.
    rewrite (foldl_insert_lookup (λ year, count_year DMR_dates year)).
    by rewrite lookup_empty. }
  assert (HPl : ∀ year, P !! year =
            if decide (year ∈ PO_years) then Some (count_year PO_dates year) else None).
  { intros year. subst P.
    rewrite (foldl_insert_lookup (λ year, count_year PO_dates year)).
    by rewrite lookup_empty. }
  destruct (year_ratio_spec dmrs_years D P) as (ratios & Hrun & Hdom & Hnone & Hval).
  { intros year. rewrite HDl. destruct (decide (year ∈ dmrs_years)); [by eauto|].
    split; [done|intros [? ?]; done]. }
  exists ratios. split; [exact Hrun|].
  intros year c Hc.
  assert (Hsome : is_Some (D !! year)) by (apply Hdom; eauto).
  destruct Hsome as [dmr_count Hdmr].
  destruct (P !! year) as [po_count|] eqn:Hpo.
  - right. rewrite (Hval year dmr_count po_count Hdmr Hpo) in Hc.
    rewrite HPl in Hpo. destruct (decide (year ∈ PO_years)) as [Hin|]; [|done].
    simplify_eq. rewrite decide_False by (by apply count_year_positive). eauto.
  - left. assert (Hn : ratios !! year = Some PyNone) by (apply Hnone; eauto).
    congruence.
Qed.

Lemma groupby_size_positive (df : list (Z * string)) (row : Z * string * N) :
  row ∈ groupby_size df → row.2 ≠ 0%N.
Proof.
  unfold groupby_size. intros Hin.
  apply list_elem_of_fmap in Hin as (k & -> & Hk). simpl.
  rewrite merge_sort_Permutation, elem_of_remove_dups in Hk.
  assert (Hf : k ∈ filter (λ r, r = k) df) by (by apply list_elem_of_filter).
  destruct (filter _ df); [by apply list.elem_of_nil in Hf|]. simpl. lia.
Qed.

(** A count the [iterrows] loop stored is the count of one of the rows. *)
Lemma vendor_counts_lookup (rows : list (Z * string * N)) (vendor : string) (year : Z) (n : N) :
  vendor_counts rows !! vendor ≫= (λ per_year, per_year !! year) = Some n →
  (year, vendor, n) ∈ rows.
Proof.
  unfold vendor_counts.
  assert (Hgen : ∀ counts0 : gmap string (gmap Z N),
    foldl (λ counts row,
             let year := row.1.1 in
             let vendor := row.1.2 in
             let count := row.2 in
             let counts :=
               if decide (is_Some (counts !! vendor)) then counts
               else <[vendor := ∅]> counts in
             alter (λ per_year, <[year := count]> per_year) vendor counts)
          counts0 rows !! vendor ≫= (λ per_year, per_year !! year) = Some n →
    counts0 !! vendor ≫= (λ per_year, per_year !! year) = Some n
    ∨ (year, vendor, n) ∈ rows).
  { induction rows as [|[[y v] c] rows IH]; intros counts0; simpl; [by left|].
    intros Hlook. apply IH in Hlook as [Hlook|Hin]; [|right; set_solver].
    rewrite lookup_alter in Hlook.
    destruct (decide (v = vendor)) as [->|Hne].
    - assert (Hstep : ∀ per_year : gmap Z N,
                <[y := c]> per_year !! year = Some n →
                per_year !! year = Some n ∨ (y = year ∧ c = n)).
      { intros per_year Hp. destruct (decide (y = year)) as [->|Hy].
        - rewrite lookup_insert_eq in Hp. naive_solver.
        - rewrite lookup_insert_ne in Hp by done. by left. }
      destruct (decide (is_Some (counts0 !! vendor))) as [[per_year Hc]|Hnone].
      + rewrite Hc in Hlook. simpl in Hlook.
        apply Hstep in Hlook as [Hp|[-> ->]]; [left; by rewrite Hc|right; set_solver].
      + rewrite lookup_insert_eq in Hlook. simpl in Hlook.
        apply Hstep in Hlook as [Hp|[-> ->]]; [by rewrite lookup_empty in Hp|right; set_solver].
    - left. destruct (decide (is_Some (counts0 !! v))); [done|].
      by rewrite lookup_insert_ne in Hlook. }
  intros Hlook. apply Hgen in Hlook as [Hlook|Hin]; [|done].
  by rewrite lookup_empty in Hlook.
Qed.

(** On the vendor tables grouped from two logs every PO count is a group
    size, hence at least one: the guard of the vendor loop always passes,
    and every (vendor, year) pair of the DMR table has an entry, null or
    finite. *)
Lemma vendor_ratio_of_logs (DMR_df supplier_PO_df : list record) :
  let vendor_DMR_counts := vendor_counts (groupby_size (with_int_year DMR_df)) in
  let vendor_PO_counts := vendor_counts (groupby_size (with_int_year supplier_PO_df)) in
  ∃ ratios, vendor_SQR_ratios vendor_DMR_counts vendor_PO_counts = Ok ratios
    ∧ ∀ vendor year dmr_count,
        vendor_DMR_counts !! vendor ≫= (λ per_year, per_year !! year) = Some dmr_count →
        ratios !! vendor ≫= (λ row, row !! year) = Some PyNone
        ∨ ∃ q, ratios !! vendor ≫= (λ row, row !! year) = Some (PyFloat (Fin q)).
Proof.
  intros D P.
  destruct (vendor_ratio_spec D P) as (ratios & Hrun & Hdom & Hval).
  exists ratios. split; [exact Hrun|].
  intros vendor year dmr_count Hdmr.
  destruct (D !! vendor) as [dc|] eqn:Hdc; [|done]. simpl in Hdmr.
  assert (Hsome : is_Some (ratios !! vendor)) by (apply Hdom; eauto).
  destruct Hsome as [row Hrow]. rewrite Hrow. simpl.
  rewrite (Hval vendor row dc year Hrow Hdc), Hdmr.
  destruct (P !! vendor ≫= (λ po_years, po_years !! year)) as [po_count|] eqn:Hpo;
    [|by left].
  right. apply vendor_counts_lookup, groupby_size_positive in Hpo. simpl in Hpo.
  rewrite decide_False by done. eauto.
Qed.

(** * Further properties of the scripts *)

(** ** The key extractor and the period counter *)

(** With 'Year', the two scripts agree: the list returned has no
    duplicates, holds exactly the year keys of the dates, and lists them in
    the order of their first occurrence. *)
Theorem unique_years_first_seen (dates : list string) :
  ∃ years, Dashboard.generate_unique_list dates "Year" = Some years
    ∧ Excel.generate_unique_list dates "Year" = Some years
    ∧ years = first_seen (year_key <$> dates)
    ∧ NoDup years
    ∧ ∀ year, year ∈ years ↔ ∃ date, date ∈ dates ∧ year_key date = year.
Proof.
  destruct (generate_unique_list_Year dates) as [Hd He].
  eexists. split; [exact Hd|]. split; [exact He|]. split; [done|].
  split; [apply NoDup_first_seen|].
  intros year. rewrite elem_of_first_seen, list_elem_of_fmap. naive_solver.
Qed.

Lemma generate_count_dict_Year_lookup (dates unique_list : list string) :
  ∃ d, generate_count_dict dates "Year" unique_list = Some (YearCounts d)
    ∧ ∀ year, d !! year =
        if decide (year ∈ unique_list) then Some (count_year dates year) else None.
Proof.
  eexists. split; [reflexivity|]. intros year.
  rewrite (foldl_insert_lookup (λ year, count_year dates year)).
  by rewrite lookup_empty.
Qed.

(** With 'Year', the counter returns one entry for each requested key and
    no other: the number of dates that start with the key, which is 0 for a
    key no date has, in particular for every key on an empty column. A key
    requested twice still has one entry. *)
Theorem count_dict_Year_entries (dates unique_list : list string) :
  ∃ d, generate_count_dict dates "Year" unique_list = Some (YearCounts d)
    ∧ (∀ year, is_Some (d !! year) ↔ year ∈ unique_list)
    ∧ (∀ year, year ∈ unique_list →
         d !! year = Some (N.of_nat (length (filter (λ date, year_key date = year) dates))))
    ∧ (∀ year, year ∈ unique_list →
         (∀ date, date ∈ dates → year_key date ≠ year) → d !! year = Some 0%N).
Proof.
  destruct (generate_count_dict_Year_lookup dates unique_list) as (d & Hrun & Hlook).
  exists d. split; [exact Hrun|]. split; [|split].
  - intros year. rewrite Hlook. destruct (decide (year ∈ unique_list)); [by eauto|].
    split; [intros [? ?]; done|done].
  - intros year Hin. rewrite Hlook. by rewrite decide_True by done.
  - intros year Hin Hnone. rewrite Hlook. rewrite decide_True by done.
    unfold count_year. f_equal.
    assert (Hnil : filter (λ date, year_key date = year) dates = []).
    { clear Hrun Hlook. induction dates as [|date dates IH]; [done|].
      rewrite filter_cons_False by (apply Hnone; set_solver).
      apply IH. intros date' Hd. apply Hnone. set_solver. }
    by rewrite Hnil.
Qed.

Lemma length_filter_or {A} (P Q : A → Prop) `{!∀ x, Decision (P x), !∀ x, Decision (Q x)}
    (l : list A) :
  (∀ x, P x → Q x → False) →
  length (filter (λ x, P x ∨ Q x) l) = (length (filter P l) + length (filter Q l))%nat.
Proof.
  intros Hdisj. induction l as [|x l IH]; [done|].
  destruct (decide (P x)) as [HP|HP]; destruct (decide (Q x)) as [HQ|HQ].
  - by destruct (Hdisj x).
  - rewrite (filter_cons_True (λ x, P x ∨ Q x)), (filter_cons_True P),
      (filter_cons_False Q) by naive_solver. simpl. by rewrite IH.
  - rewrite (filter_cons_True (λ x, P x ∨ Q x)), (filter_cons_False P),
      (filter_cons_True Q) by naive_solver. simpl. rewrite IH. lia.
  - rewrite (filter_cons_False (λ x, P x ∨ Q x)), (filter_cons_False P),
      (filter_cons_False Q) by naive_solver. exact IH.
Qed.

Lemma filter_all {A} (P : A → Prop) `{!∀ x, Decision (P x)} (l : list A) :
  (∀ x, x ∈ l → P x) → filter P l = l.
Proof.
  induction l as [|x l IH]; intros HP; [done|].
  rewrite filter_cons_True by (apply HP; set_solver).
  f_equal. apply IH. intros y Hy. apply HP. set_solver.
Qed.

(** Counting a column key by key, over keys that are pairwise distinct,
    counts each cell whose key is listed once. *)
Lemma sum_counts_by_key {A K} `{EqDecision K} (g : A → K) (col : list A) (keys : list K) :
  NoDup keys →
  foldr N.add 0%N ((λ k, N.of_nat (length (filter (λ x, g x = k) col))) <$> keys)
  = N.of_nat (length (filter (λ x, g x ∈ keys) col)).
Proof.
  intros Hnd. induction Hnd as [|k keys Hk Hnd IH]; csimpl.
  - f_equal. induction col as [|x col IHc]; [done|].
    by rewrite filter_cons_False by set_solver.
  - rewrite IH, <- Nat2N.inj_add. f_equal.
    rewrite <- (length_filter_or (λ x, g x = k) (λ x, g x ∈ keys)).
    + f_equal. apply list_filter_iff. intros x. rewrite list.elem_of_cons. done.
    + intros x <- Hin. done.
Qed.

(** The year counts of the keys the extractor returns add up to the number
    of records: every record is counted under exactly one year key. *)
Theorem year_counts_sum (dates : list string) :
  ∃ years d, Dashboard.generate_unique_list dates "Year" = Some years
    ∧ generate_count_dict dates "Year" years = Some (YearCounts d)
    ∧ foldr N.add 0%N ((λ year, default 0%N (d !! year)) <$> years)
      = N.of_nat (length dates).
Proof.
  destruct (generate_unique_list_Year dates) as [Hd _].
  destruct (generate_count_dict_Year_lookup dates (first_seen (year_key <$> dates)))
    as (d & Hrun & Hlook).
  eexists _, d. split; [exact Hd|]. split; [exact Hrun|].
  transitivity (foldr N.add 0%N
    ((λ k, N.of_nat (length (filter (λ x, year_key x = k) dates)))
       <$> first_seen (year_key <$> dates))).
  - f_equal. apply list_fmap_ext. intros _ year Hin%list_elem_of_lookup_2.
    rewrite Hlook. by rewrite decide_True by done.
  - rewrite sum_counts_by_key by apply NoDup_first_seen. do 2 f_equal.
    apply filter_all. intros date Hin. rewrite elem_of_first_seen. set_solver.
Qed.

Lemma generate_count_dict_Month_run (dates unique_list : list string) :
  ∃ d, generate_count_dict dates "Month" unique_list = Some (MonthCounts d)
    ∧ ∀ yr, d !! yr =
        if decide (yr ∈ first_seen (year_key <$> dates)) then
          Some (foldl (λ month_counts month,
                         <[month := count_year_month dates yr month]> month_counts)
                      ∅ unique_list)
        else None.
Proof.
  eexists. split; [reflexivity|]. intros yr.
  rewrite (foldl_insert_lookup
             (λ yr, foldl (λ month_counts month,
                             <[month := count_year_month dates yr month]> month_counts)
                          ∅ unique_list)).
  rewrite lookup_empty. by rewrite unique_first_seen.
Qed.

(** With 'Month', the years of the result are the year keys found in the
    column, whatever list was passed; under each of them there is one entry
    for each requested month and no other, the number of dates of the year
    whose characters 5 and 6 are the month. An empty column gives an empty
    dictionary. *)
Theorem count_dict_Month_entries (dates unique_list : list string) :
  ∃ d, generate_count_dict dates "Month" unique_list = Some (MonthCounts d)
    ∧ (∀ yr, is_Some (d !! yr) ↔ ∃ date, date ∈ dates ∧ year_key date = yr)
    ∧ (∀ yr month_counts month,
         d !! yr = Some month_counts →
         month_counts !! month =
           if decide (month ∈ unique_list) then
             Some (N.of_nat (length (filter (λ date, month_key date = month)
                                            (filter (λ date, year_key date = yr) dates))))
           else None)
    ∧ (dates = [] → d = ∅).
Proof.
  destruct (generate_count_dict_Month_run dates unique_list) as (d & Hrun & Hlook).
  exists d. split; [exact Hrun|]. split; [|split].
  - intros yr. rewrite Hlook.
    assert (Hmem : yr ∈ first_seen (year_key <$> dates)
                   ↔ ∃ date, date ∈ dates ∧ year_key date = yr).
    { rewrite elem_of_first_seen, list_elem_of_fmap. naive_solver. }
    rewrite <- Hmem.
    destruct (decide (yr ∈ first_seen (year_key <$> dates))) as [Hin|Hin].
    + split; [done|eauto].
    + split; [intros [? ?]; done|done].
  - intros yr month_counts month Hyr.
    by destruct (generate_count_dict_Month_lookup _ _ _ yr month month_counts Hrun Hyr).
  - intros ->. apply map_eq. intros yr. rewrite Hlook. simpl.
    by rewrite lookup_empty.
Qed.

Lemma NoDup_unique_months : NoDup unique_months.
Proof. compute_done. Qed.

(** Under a year, the counts of the twelve months add up to the number of
    dates of the year whose month characters are one of the twelve codes:
    a date with any other characters there is counted in no month, so the
    sum can fall short of the year's own count but never exceeds it. *)
Theorem month_counts_sum (dates : list string) :
  ∃ d, generate_count_dict dates "Month" unique_months = Some (MonthCounts d)
    ∧ ∀ yr month_counts,
        d !! yr = Some month_counts →
        let total := foldr N.add 0%N
                       ((λ month, default 0%N (month_counts !! month)) <$> unique_months) in
        total = N.of_nat (length (filter (λ date, month_key date ∈ unique_months)
                                         (filter (λ date, year_key date = yr) dates)))
        ∧ (total ≤ count_year dates yr)%N.
Proof.
  destruct (generate_count_dict_Month_run dates unique_months) as (d & Hrun & _).
  exists d. split; [exact Hrun|].
  intros yr month_counts Hyr total.
  assert (Htotal : total = N.of_nat (length (filter (λ date, month_key date ∈ unique_months)
                                         (filter (λ date, year_key date = yr) dates)))).
  { subst total. rewrite <- (sum_counts_by_key month_key) by apply NoDup_unique_months.
    f_equal. apply list_fmap_ext. intros _ month Hin%list_elem_of_lookup_2.
    destruct (generate_count_dict_Month_lookup _ _ _ yr month month_counts Hrun Hyr)
      as [_ ->].
    by rewrite decide_True by done. }
  split; [exact Htotal|].
  rewrite Htotal. unfold count_year.
  pose proof (length_filter (λ date, month_key date ∈ unique_months)
                (filter (λ date, year_key date = yr) dates)). lia.
Qed.

(** ** Grouping a log by year and vendor *)

Lemma year_vendor_le_total : Total year_vendor_le.
Proof.
  intros [y1 v1] [y2 v2]. unfold year_vendor_le. simpl.
  destruct (Z.lt_trichotomy y1 y2) as [?|[->|?]]; [by left; left| |by right; left].
  destruct (total String.le v1 v2); [left|right]; by right.
Qed.

Lemma sum_N_Permutation (l1 l2 : list N) :
  l1 ≡ₚ l2 → foldr N.add 0%N l1 = foldr N.add 0%N l2.
Proof. induction 1; simpl; [done|by f_equal|lia|congruence]. Qed.

Lemma groupby_size_keys (df : list (Z * string)) :
  (groupby_size df).*1 = merge_sort year_vendor_le (remove_dups df).
Proof.
  unfold groupby_size. rewrite <- list_fmap_compose.
  rewrite <- (list_fmap_id (merge_sort _ _)) at 2.
  apply list_fmap_ext. by intros _ [y v] _.
Qed.

(** The grouped frame has one row per (year, vendor) pair of the input, in
    ascending order of year and then vendor; the count of a row is the number
    of input rows of the pair, at least 1; the counts add up to the number
    of input rows. *)
Theorem groupby_size_rows (df : list (Z * string)) :
  NoDup (groupby_size df).*1
  ∧ Sorted year_vendor_le (groupby_size df).*1
  ∧ (∀ year vendor count,
       (year, vendor, count) ∈ groupby_size df ↔
       (year, vendor) ∈ df
       ∧ count = N.of_nat (length (filter (λ r, r = (year, vendor)) df)))
  ∧ (∀ row, row ∈ groupby_size df → (1 ≤ row.2)%N)
  ∧ foldr N.add 0%N (groupby_size df).*2 = N.of_nat (length df).
Proof.
  split; [|split; [|split; [|split]]].
  - rewrite groupby_size_keys, merge_sort_Permutation. apply NoDup_remove_dups.
  - rewrite groupby_size_keys.
    apply (@Sorted_merge_sort _ year_vendor_le _ year_vendor_le_total).
  - intros year vendor count. unfold groupby_size. rewrite list_elem_of_fmap. split.
    + intros ([y v] & Heq & Hin). simpl in Heq. simplify_eq.
      by rewrite merge_sort_Permutation, elem_of_remove_dups in Hin.
    + intros [Hin ->]. exists (year, vendor). split; [done|].
      by rewrite merge_sort_Permutation, elem_of_remove_dups.
  - intros row Hrow. pose proof (groupby_size_positive df row Hrow). lia.
  - transitivity (foldr N.add 0%N
      ((λ k, N.of_nat (length (filter (λ r, id r = k) df)))
         <$> merge_sort year_vendor_le (remove_dups df))).
    + unfold groupby_size. rewrite <- list_fmap_compose. f_equal.
    + rewrite (sum_N_Permutation _ _
                 (fmap_Permutation _ _ _ (merge_sort_Permutation _ (remove_dups df)))).
      rewrite sum_counts_by_key by apply NoDup_remove_dups. do 2 f_equal.
      apply filter_all. intros r Hr. by apply elem_of_remove_dups.
Qed.

(** One pass of the [iterrows] loop body, seen at a (vendor, year) pair. *)
Lemma vendor_counts_step (counts0 : gmap string (gmap Z N)) (y0 : Z) (v0 : string) (n0 : N)
    (vendor : string) (year : Z) :
  alter (λ per_year, <[y0 := n0]> per_year) v0
        (if decide (is_Some (counts0 !! v0)) then counts0 else <[v0 := ∅]> counts0)
    !! vendor ≫= (λ per_year, per_year !! year)
  = if decide (v0 = vendor ∧ y0 = year) then Some n0
    else counts0 !! vendor ≫= (λ per_year, per_year !! year).
Proof.
  rewrite lookup_alter.
  destruct (decide (v0 = vendor)) as [->|Hv].
  - destruct (decide (is_Some (counts0 !! vendor))) as [[per_year Hc]|Hc].
    + rewrite Hc. simpl. destruct (decide (y0 = year)) as [->|Hy].
      * rewrite lookup_insert_eq.
        by rewrite (decide_True (P := vendor = vendor ∧ year = year)) by done.
      * rewrite lookup_insert_ne by done.
        by rewrite (decide_False (P := vendor = vendor ∧ y0 = year)) by naive_solver.
    + rewrite lookup_insert_eq. simpl.
      assert (Hn : counts0 !! vendor = None).
      { destruct (counts0 !! vendor) eqn:E; [|done]. destruct Hc. eauto. }
      rewrite Hn. simpl. destruct (decide (y0 = year)) as [->|Hy].
      * rewrite lookup_insert_eq.
        by rewrite (decide_True (P := vendor = vendor ∧ year = year)) by done.
      * rewrite lookup_insert_ne, lookup_empty by done.
        by rewrite (decide_False (P := vendor = vendor ∧ y0 = year)) by naive_solver.
  - rewrite (decide_False (P := v0 = vendor ∧ y0 = year)) by naive_solver.
    destruct (decide (is_Some (counts0 !! v0))); [done|].
    by rewrite lookup_insert_ne by done.
Qed.

Lemma vendor_counts_foldl (rows : list (Z * string * N)) (counts0 : gmap string (gmap Z N))
    (vendor : string) (year : Z) :
  NoDup rows.*1 →
  foldl (λ counts row,
           let year := row.1.1 in
           let vendor := row.1.2 in
           let count := row.2 in
           let counts :=
             if decide (is_Some (counts !! vendor)) then counts
             else <[vendor := ∅]> counts in
           alter (λ per_year, <[year := count]> per_year) vendor counts)
        counts0 rows !! vendor ≫= (λ per_year, per_year !! year)
  = match list_find (λ row, row.1 = (year, vendor)) rows with
    | Some (_, row) => Some row.2
    | None => counts0 !! vendor ≫= (λ per_year, per_year !! year)
    end.
Proof.
  revert counts0. induction rows as [|[[y v] n] rows IH]; intros counts0 Hnd; [done|].
  rewrite fmap_cons in Hnd. apply list.NoDup_cons in Hnd as [Hfresh Hnd].
  cbn [foldl]. rewrite IH by done. cbn [fst snd].
  rewrite vendor_counts_step. simpl.
  destruct (decide ((y, v) = (year, vendor))) as [Heq|Hne].
  - simplify_eq. simpl.
    destruct (list_find _ rows) as [[i row]|] eqn:Hfind; simpl.
    + apply list_find_Some in Hfind as (Hi & Hrow & _).
      destruct Hfresh. apply list_elem_of_fmap. exists row. split; [done|].
      by eapply list_elem_of_lookup_2.
    + by rewrite decide_True by done.
  - destruct (list_find _ rows) as [[i row]|]; simpl; [done|].
    by rewrite decide_False by naive_solver.
Qed.

Lemma vendor_counts_groupby_lookup (df : list (Z * string)) (vendor : string) (year : Z) :
  vendor_counts (groupby_size df) !! vendor ≫= (λ per_year, per_year !! year)
  = if decide ((year, vendor) ∈ df)
    then Some (N.of_nat (length (filter (λ r, r = (year, vendor)) df)))
    else None.
Proof.
  unfold vendor_counts. rewrite vendor_counts_foldl.
  2:{ rewrite groupby_size_keys, merge_sort_Permutation. apply NoDup_remove_dups. }
  rewrite lookup_empty. simpl.
  destruct (list_find _ (groupby_size df)) as [[i row]|] eqn:Hfind.
  - apply list_find_Some in Hfind as (Hi & Hrow & _).
    apply list_elem_of_lookup_2 in Hi. unfold groupby_size in Hi.
    apply list_elem_of_fmap in Hi as ([y v] & -> & Hin). simpl in *. simplify_eq.
    rewrite merge_sort_Permutation, elem_of_remove_dups in Hin.
    by rewrite decide_True by done.
  - destruct (decide ((year, vendor) ∈ df)) as [Hin|Hin]; [|done].
    exfalso. apply list_find_None in Hfind.
    eapply (proj1 (list.Forall_forall _ _) Hfind
              (year, vendor, N.of_nat (length (filter (λ r, r = (year, vendor)) df)))).
    + unfold groupby_size. apply list_elem_of_fmap. exists (year, vendor).
      split; [done|]. by rewrite merge_sort_Permutation, elem_of_remove_dups.
    + done.
Qed.

(** The dictionary of dictionaries built from the grouped frame holds,
    under a vendor and a year, exactly the count of the row of that pair:
    nothing is lost or merged on the way from the frame to the dictionary,
    and a pair without a row has no entry. *)
Theorem vendor_counts_of_groupby (df : list (Z * string)) (vendor : string) (year : Z) :
  vendor_counts (groupby_size df) !! vendor ≫= (λ per_year, per_year !! year)
  = if decide ((year, vendor) ∈ df)
    then Some (N.of_nat (length (filter (λ r, r = (year, vendor)) df)))
    else None.
Proof. apply vendor_counts_groupby_lookup. Qed.

(** ** The vendor ratios and the bar chart, from the two logs *)

Lemma vendor_ratios_of_logs_lookup (DMR_df supplier_PO_df : list record) :
  ∃ ratios,
    vendor_SQR_ratios (vendor_counts (groupby_size (with_int_year DMR_df)))
                      (vendor_counts (groupby_size (with_int_year supplier_PO_df)))
    = Ok ratios
    ∧ ∀ vendor year,
        ratios !! vendor ≫= (λ row, row !! year) =
          if decide ((year, vendor) ∈ with_int_year DMR_df) then
            if decide ((year, vendor) ∈ with_int_year supplier_PO_df) then
              Some (PyFloat (Fin
                (Qc_of_Z (Z.of_N (N.of_nat (length
                   (filter (λ r, r = (year, vendor)) (with_int_year DMR_df)))))
                 / Qc_of_Z (Z.of_N (N.of_nat (length
                   (filter (λ r, r = (year, vendor)) (with_int_year supplier_PO_df)))))
                 * c100)%Qc))
            else Some PyNone
          else None.
Proof.
  set (D := vendor_counts (groupby_size (with_int_year DMR_df))).
  set (P := vendor_counts (groupby_size (with_int_year supplier_PO_df))).
  destruct (vendor_ratio_spec D P) as (ratios & Hrun & Hdom & Hval).
  exists ratios. split; [exact Hrun|].
  intros vendor year.
  pose proof (vendor_counts_groupby_lookup (with_int_year DMR_df) vendor year) as HD.
  pose proof (vendor_counts_groupby_lookup (with_int_year supplier_PO_df) vendor year) as HP.
  fold D in HD. fold P in HP.
  destruct (ratios !! vendor) as [row|] eqn:Hrow.
  - assert (Hsome : is_Some (D !! vendor)) by (apply Hdom; eauto).
    destruct Hsome as [dc Hdc]. simpl.
    rewrite (Hval vendor row dc year Hrow Hdc).
    rewrite Hdc in HD. simpl in HD. rewrite HD, HP.
    destruct (decide ((year, vendor) ∈ with_int_year DMR_df)); [|done].
    destruct (decide ((year, vendor) ∈ with_int_year supplier_PO_df)) as [Hin|]; [|done].
    rewrite decide_False; [done|].
    assert (Hf : (year, vendor) ∈ filter (λ r, r = (year, vendor))
                                      (with_int_year supplier_PO_df))
      by (by apply list_elem_of_filter).
    destruct (filter _ (with_int_year supplier_PO_df));
      [by apply list.elem_of_nil in Hf|]. simpl. lia.
  - assert (Hnone : D !! vendor = None).
    { destruct (D !! vendor) eqn:E; [|done].
      assert (Hs : is_Some (ratios !! vendor)) by (apply Hdom; eauto).
      rewrite Hrow in Hs. by destruct Hs. }
    rewrite Hnone in HD. simpl in *.
    by destruct (decide ((year, vendor) ∈ with_int_year DMR_df)).
Qed.

(** From the two logs, the vendor loop gives a (vendor, year) pair an entry
    exactly when the DMR log has a record of the vendor in the year (among
    the records with a numeric year); the entry is null when the PO log has
    no record of the pair and is otherwise 100 times the number of DMR
    records over the number of PO records of the pair. No pair is left out
    and no division by zero is attempted, since a count that is present
    counts at least one record. *)
Theorem vendor_ratios_of_logs (DMR_df supplier_PO_df : list record) :
  ∃ ratios,
    vendor_SQR_ratios (vendor_counts (groupby_size (with_int_year DMR_df)))
                      (vendor_counts (groupby_size (with_int_year supplier_PO_df)))
    = Ok ratios
    ∧ ∀ vendor year,
        ratios !! vendor ≫= (λ row, row !! year) =
          if decide ((year, vendor) ∈ with_int_year DMR_df) then
            if decide ((year, vendor) ∈ with_int_year supplier_PO_df) then
              Some (PyFloat (Fin
                (Qc_of_Z (Z.of_N (N.of_nat (length
                   (filter (λ r, r = (year, vendor)) (with_int_year DMR_df)))))
                 / Qc_of_Z (Z.of_N (N.of_nat (length
                   (filter (λ r, r = (year, vendor)) (with_int_year supplier_PO_df)))))
                 * c100)%Qc))
            else Some PyNone
          else None.
Proof. apply vendor_ratios_of_logs_lookup. Qed.

Lemma with_int_year_elem (df : list record) (year : Z) (vendor : string) :
  (year, vendor) ∈ with_int_year df
  ↔ ∃ date, (date, vendor) ∈ df ∧ isdigit (year_key date) = true
            ∧ int_of_string (year_key date) = year.
Proof.
  unfold with_int_year. rewrite list_elem_of_fmap. split.
  - intros ([date v] & Heq & Hin). apply list_elem_of_filter in Hin as [Hd Hin].
    simpl in *. simplify_eq. eauto.
  - intros (date & Hin & Hd & <-). exists (date, vendor). split; [done|].
    by apply list_elem_of_filter.
Qed.

(** The bar chart of a year, drawn from the vendor table of the two logs,
    is produced exactly when some DMR record with a numeric year key falls
    in that year; for any other year the table has no such column and the
    chart raises [KeyError]. *)
Theorem bar_chart_of_logs (DMR_df supplier_PO_df : list record) :
  ∃ rows, vendor_table DMR_df supplier_PO_df = Ok rows
    ∧ ∀ year,
        ((∃ bars, generate_SQR_bar_chart rows year = Ok bars)
         ↔ ∃ date vendor, (date, vendor) ∈ DMR_df ∧ isdigit (year_key date) = true
                          ∧ int_of_string (year_key date) = year)
        ∧ ((¬ ∃ bars, generate_SQR_bar_chart rows year = Ok bars)
           → generate_SQR_bar_chart rows year = Raise KeyError).
Proof.
  destruct (vendor_ratios_of_logs_lookup DMR_df supplier_PO_df) as (ratios & Hrun & Hlook).
  unfold vendor_table. rewrite Hrun. simpl. eexists. split; [reflexivity|].
  intros year.
  assert (Hcol : Exists (λ row : string * gmap Z cell, is_Some (row.2 !! year))
                        (df_vendor_SQR_ratios ratios)
                 ↔ ∃ date vendor, (date, vendor) ∈ DMR_df ∧ isdigit (year_key date) = true
                                  ∧ int_of_string (year_key date) = year).
  { rewrite list.Exists_exists. unfold df_vendor_SQR_ratios. split.
    - intros ([vendor row] & Hin & Hsome). apply elem_of_map_to_list in Hin.
      pose proof (Hlook vendor year) as Hl. rewrite Hin in Hl. simpl in *.
      destruct (decide ((year, vendor) ∈ with_int_year DMR_df)) as [Hd|Hd].
      + apply with_int_year_elem in Hd as (date & ? & ? & ?). eauto.
      + rewrite Hl in Hsome. by destruct Hsome.
    - intros (date & vendor & Hin & Hd & Hy).
      assert (Hd' : (year, vendor) ∈ with_int_year DMR_df)
        by (apply with_int_year_elem; eauto).
      pose proof (Hlook vendor year) as Hl. rewrite decide_True in Hl by done.
      destruct (ratios !! vendor) as [row|] eqn:Hrow; simpl in Hl.
      + exists (vendor, row). split; [by apply elem_of_map_to_list|].
        simpl. rewrite Hl. by destruct (decide _).
      + by destruct (decide ((year, vendor) ∈ with_int_year supplier_PO_df)). }
  unfold generate_SQR_bar_chart.
  destruct (decide (Exists _ (df_vendor_SQR_ratios ratios))) as [Hex|Hex].
  - split; [|intros Hn; destruct Hn; eauto].
    split; [intros _; by apply Hcol|eauto].
  - split; [|done]. split; [intros [bars ?]; done|].
    intros Hd. destruct Hex. by apply Hcol.
Qed.

(** ** The ranking of the bar chart *)

Lemma float_ge_trans (x y z : float) :
  y ≠ NaN → float_ge x y → float_ge y z → float_ge x z.
Proof.
  unfold float_ge.
  destruct x as [a| | |], y as [b| | |], z as [c| | |]; simpl; try done.
  intros _ Hab%bool_decide_eq_false Hbc%bool_decide_eq_false.
  apply bool_decide_eq_false. apply Qcle_not_lt.
  apply Qcnot_lt_le in Hab, Hbc. by etrans.
Qed.

Lemma Sorted_StronglySorted_on {A} (R : relation A) (l : list A) :
  (∀ x y z, x ∈ l → y ∈ l → z ∈ l → R x y → R y z → R x z) →
  Sorted R l → StronglySorted R l.
Proof.
  intros Htrans Hs. induction Hs as [|x l Hs IH Hhd]; [constructor|].
  assert (Hss : StronglySorted R l).
  { apply IH. intros a b c ???. apply Htrans; set_solver. }
  constructor; [exact Hss|].
  destruct Hhd as [|y l' Hxy]; [constructor|].
  apply StronglySorted_inv in Hss as [_ Hall].
  constructor; [done|].
  apply list.Forall_forall. intros z Hz.
  apply (Htrans x y z); [set_solver..|done|].
  by eapply list.Forall_forall in Hall.
Qed.

(** The chart raises [KeyError] when no row has the year's column.
    Otherwise it shows the rows with a value, up to eight of them, and
    every row with a value that it leaves out has a value no larger than
    that of every bar shown. *)
Theorem bar_chart_top8 (df_SQR : list (string * gmap Z cell)) (year : Z) :
  let kept := omap (λ row, x ← notna (row.2 !! year); Some (row.1, x)) df_SQR in
  (¬ Exists (λ row, is_Some (row.2 !! year)) df_SQR →
     generate_SQR_bar_chart df_SQR year = Raise KeyError)
  ∧ (Exists (λ row, is_Some (row.2 !! year)) df_SQR →
     ∃ bars rest, generate_SQR_bar_chart df_SQR year = Ok bars
       ∧ length bars = min 8 (length kept)
       ∧ ((λ b, (bar_vendor b, bar_value b)) <$> bars) ++ rest ≡ₚ kept
       ∧ ∀ b r, b ∈ bars → r ∈ rest → float_ge (bar_value b) r.2).
Proof.
  intros kept. unfold generate_SQR_bar_chart. fold kept. split.
  - intros Hno. by rewrite decide_False by done.
  - intros Hex. rewrite decide_True by done.
    exists ((λ r, {| bar_vendor := r.1; bar_value := r.2;
                     bar_text := float_round 2 r.2 |})
              <$> take 8 (merge_sort bar_ge kept)),
           (drop 8 (merge_sort bar_ge kept)).
    assert (Hback : (λ b, (bar_vendor b, bar_value b)) <$>
                      ((λ r : string * float,
                          {| bar_vendor := r.1; bar_value := r.2;
                             bar_text := float_round 2 r.2 |})
                         <$> take 8 (merge_sort bar_ge kept))
                    = take 8 (merge_sort bar_ge kept)).
    { rewrite <- list_fmap_compose.
      rewrite <- (list_fmap_id (take 8 _)) at 2.
      apply list_fmap_ext. by intros _ [v x] _. }
    split; [done|]. split; [|split].
    + rewrite length_fmap, length_take.
      by rewrite (Permutation_length (merge_sort_Permutation bar_ge kept)).
    + rewrite Hback, take_drop. apply merge_sort_Permutation.
    + intros b r Hb Hr.
      assert (Hb' : (bar_vendor b, bar_value b) ∈ take 8 (merge_sort bar_ge kept)).
      { rewrite <- Hback. apply list_elem_of_fmap. eauto. }
      assert (Hss : StronglySorted bar_ge
                      (take 8 (merge_sort bar_ge kept) ++ drop 8 (merge_sort bar_ge kept))).
      { rewrite take_drop. apply Sorted_StronglySorted_on.
        - intros x y z _ Hy _. unfold bar_ge. apply float_ge_trans.
          rewrite merge_sort_Permutation in Hy. subst kept.
          apply list_elem_of_omap in Hy as (row & _ & Hrow).
          destruct (row.2 !! year) as [[|[]]|]; simpl in Hrow; by simplify_eq.
        - apply (@Sorted_merge_sort _ bar_ge _ bar_ge_total). }
      apply (StronglySorted_app_1_elem_of _ _ _ _ _ Hss Hb' Hr).
Qed.

(** ** The limits and the moving ranges of the chart *)







(** ** The monthly frame of a vendor and a year *)

Lemma year_month_le_total : Total year_month_le.
Proof. intros [y1 m1] [y2 m2]. unfold year_month_le. simpl. lia. Qed.



Lemma row_le_total : Total row_le.
Proof. intros a b. apply year_month_le_total. Qed.

(** The 'Year-Month' values of the rows of the vendor in the year. *)
Lemma elem_of_Year_Month (vendor : string) (year : Z) (raw_df : list dmr_row) (k : year_month) :
  k ∈ omap (λ r, dt_period_M (Date r))
           (filter (λ r, Vendor r = vendor ∧ dt_year (Date r) = Some year) raw_df)
  ↔ ∃ r, r ∈ raw_df ∧ Vendor r = vendor ∧ dt_year (Date r) = Some year
         ∧ dt_period_M (Date r) = Some k.
Proof.
  rewrite list_elem_of_omap. split.
  - intros (r & Hin & Hk). apply list_elem_of_filter in Hin as [[Hv Hy] Hin]. eauto 6.
  - intros (r & Hin & Hv & Hy & Hk). exists r. split; [|done].
    by apply list_elem_of_filter.
Qed.

Lemma monthly_frame_keys (vendor : string) (year : Z) (raw_df : list dmr_row) :
  (monthly_frame vendor year raw_df).*1 ≡ₚ
  remove_dups (omap (λ r, dt_period_M (Date r))
                    (filter (λ r, Vendor r = vendor ∧ dt_year (Date r) = Some year) raw_df)).
Proof.
  unfold monthly_frame. rewrite merge_sort_Permutation, <- list_fmap_compose.
  rewrite (list_fmap_ext _ id) by done.
  by rewrite list_fmap_id, merge_sort_Permutation.
Qed.

Lemma length_filter_omap {A B} `{EqDecision B} (f : A → Datatypes.option B) (k : B)
    (l : list A) :
  length (filter (λ y, y = k) (omap f l)) = length (filter (λ x, f x = Some k) l).
Proof.
  induction l as [|x l IH]; [done|]. csimpl.
  destruct (f x) as [y|] eqn:Hf; csimpl.
  - destruct (decide (y = k)) as [->|Hne].
    + rewrite !filter_cons_True by done. simpl. by rewrite IH.
    + rewrite !filter_cons_False by congruence. exact IH.
  - rewrite filter_cons_False by congruence. exact IH.
Qed.

(** The monthly frame lists each month in which the vendor has a dated
    record in the year once, in ascending order, with the number of those
    records, at least 1; a month without a record has no row (it is not
    filled with 0); the counts add up to the number of the vendor's records
    in the year. *)
Theorem monthly_frame_rows (vendor : string) (year : Z) (raw_df : list dmr_row) :
  let frame := monthly_frame vendor year raw_df in
  NoDup frame.*1
  ∧ Sorted year_month_le frame.*1
  ∧ (∀ k n, (k, n) ∈ frame ↔
       (1 ≤ n)%N
       ∧ n = N.of_nat (length (filter
               (λ r, Vendor r = vendor ∧ dt_year (Date r) = Some year
                     ∧ dt_period_M (Date r) = Some k) raw_df)))
  ∧ (∀ k, k ∈ frame.*1 → k.1 = year)
  ∧ foldr N.add 0%N frame.*2
    = N.of_nat (length (filter (λ r, Vendor r = vendor ∧ dt_year (Date r) = Some year)
                               raw_df)).
Proof.
  intros frame.
  set (vendor_data := filter (λ r, Vendor r = vendor ∧ dt_year (Date r) = Some year) raw_df).
  set (YM := omap (λ r, dt_period_M (Date r)) vendor_data).
  assert (Hcount : ∀ k, length (filter (λ ym, ym = k) YM)
            = length (filter (λ r, Vendor r = vendor ∧ dt_year (Date r) = Some year
                                   ∧ dt_period_M (Date r) = Some k) raw_df)).
  { intros k. subst YM vendor_data. rewrite length_filter_omap, list_filter_filter.
    f_equal. apply list_filter_iff. naive_solver. }
  assert (Hin : ∀ k n, (k, n) ∈ frame ↔
            k ∈ YM ∧ n = N.of_nat (length (filter (λ ym, ym = k) YM))).
  { intros k n. subst frame. unfold monthly_frame. fold vendor_data. fold YM.
    rewrite merge_sort_Permutation, list_elem_of_fmap. split.
    - intros (k' & Heq & Hk). simplify_eq.
      by rewrite merge_sort_Permutation, elem_of_remove_dups in Hk.
    - intros [Hk ->]. exists k. split; [done|].
      by rewrite merge_sort_Permutation, elem_of_remove_dups. }
  split; [|split; [|split; [|split]]].
  - subst frame. rewrite monthly_frame_keys. apply NoDup_remove_dups.
  - subst frame. unfold monthly_frame.
    apply (Sorted_fmap _ row_le); [by intros a b|].
    apply (@Sorted_merge_sort _ row_le _ row_le_total).
  - intros k n. rewrite Hin, <- Hcount. split.
    + intros [Hk ->]. split; [|done].
      assert (Hf : k ∈ filter (λ ym, ym = k) YM) by (by apply list_elem_of_filter).
      destruct (filter _ YM); [by apply list.elem_of_nil in Hf|]. simpl. lia.
    + intros [Hpos ->]. split; [|done].
      destruct (filter (λ ym, ym = k) YM) as [|k' l] eqn:Hf; [simpl in Hpos; lia|].
      assert (Hk' : k' ∈ filter (λ ym, ym = k) YM) by (rewrite Hf; set_solver).
      apply list_elem_of_filter in Hk' as [-> Hk']. done.
  - intros k Hk. subst frame. rewrite monthly_frame_keys, elem_of_remove_dups in Hk.
    apply elem_of_Year_Month in Hk as (r & _ & _ & Hy & Hp).
    destruct (Date r) as [|t|]; simpl in *; by simplify_eq.
  - subst frame. unfold monthly_frame. fold vendor_data. fold YM.
    rewrite (sum_N_Permutation _ _ (fmap_Permutation _ _ _ (merge_sort_Permutation _ _))).
    rewrite <- list_fmap_compose.
    rewrite (sum_N_Permutation _ _ (fmap_Permutation _ _ _ (merge_sort_Permutation _ _))).
    transitivity (foldr N.add 0%N
      ((λ k, N.of_nat (length (filter (λ ym, id ym = k) YM))) <$> remove_dups YM)).
    { f_equal. }
    rewrite sum_counts_by_key by apply NoDup_remove_dups.
    rewrite filter_all by (intros ym Hym; by apply elem_of_remove_dups).
    f_equal. subst YM. clear Hcount Hin.
    assert (Hall : ∀ r, r ∈ vendor_data → is_Some (dt_period_M (Date r))).
    { intros r Hr. apply list_elem_of_filter in Hr as [[_ Hy] _].
      destruct (Date r); simpl in *; by eauto. }
    induction vendor_data as [|r l IH]; [done|]. csimpl.
    destruct (Hall r) as [k ->]; [set_solver|]. simpl. f_equal.
    apply IH. intros r' Hr'. apply Hall. set_solver.
Qed.




(** ** The year and month ratios, from the two logs *)

Lemma Qc_of_Z_pos (n : Z) : 0 < n → (0 < Qc_of_Z n)%Qc.
Proof. intros Hn. unfold Qclt. simpl. unfold Qlt. simpl. lia. Qed.

Lemma ratio_pos (a b : N) :
  a ≠ 0%N → b ≠ 0%N → (0 < Qc_of_Z (Z.of_N a) / Qc_of_Z (Z.of_N b) * c100)%Qc.
Proof.
  intros Ha Hb. apply Qcmult_pos_pos; [|by apply Qc_of_Z_pos].
  unfold Qcdiv. apply Qcmult_pos_pos; [apply Qc_of_Z_pos; lia|].
  apply Qcinv_pos, Qc_of_Z_pos. lia.
Qed.

(** Run on the date columns of the two logs, the year-level steps never
    raise and give each year key of the DMR log one cell: null when no PO
    date has the key, and otherwise 100 times the number of DMR dates over
    the number of PO dates with the key, a finite and positive number (the
    zero divisor of the unguarded division cannot come from a log). *)
Theorem year_ratios_of_logs (DMR_dates PO_dates : list string) :
  ∃ dmrs_years PO_years DMRs_yrs_count PO_yrs_count ratios,
    Dashboard.generate_unique_list DMR_dates "Year" = Some dmrs_years
    ∧ Dashboard.generate_unique_list PO_dates "Year" = Some PO_years
    ∧ generate_count_dict DMR_dates "Year" dmrs_years = Some (YearCounts DMRs_yrs_count)
    ∧ generate_count_dict PO_dates "Year" PO_years = Some (YearCounts PO_yrs_count)
    ∧ DMR_PO_perc_yr dmrs_years DMRs_yrs_count PO_yrs_count = Ok ratios
    ∧ (∀ year, ratios !! year =
         if decide (year ∈ year_key <$> DMR_dates) then
           if decide (year ∈ year_key <$> PO_dates) then
             Some (PyFloat (Fin (Qc_of_Z (Z.of_N (count_year DMR_dates year))
                                 / Qc_of_Z (Z.of_N (count_year PO_dates year)) * c100)%Qc))
           else Some PyNone
         else None)
    ∧ ∀ year x, ratios !! year = Some (PyFloat x) → ∃ q, x = Fin q ∧ (0 < q)%Qc.
Proof.
  destruct (generate_unique_list_Year DMR_dates) as [Hdy _].
  destruct (generate_unique_list_Year PO_dates) as [Hpy _].
  set (dmrs_years := first_seen (year_key <$> DMR_dates)) in *.
  set (PO_years := first_seen (year_key <$> PO_dates)) in *.
  destruct (generate_count_dict_Year_lookup DMR_dates dmrs_years) as (D & HD & HDl).
  destruct (generate_count_dict_Year_lookup PO_dates PO_years) as (P & HP & HPl).
  destruct (year_ratio_spec dmrs_years D P) as (ratios & Hrun & Hdom & Hnone & Hval).
  { intros year. rewrite HDl. destruct (decide (year ∈ dmrs_years)); [by eauto|].
    split; [done|intros [? ?]; done]. }
  assert (Hlook : ∀ year, ratios !! year =
         if decide (year ∈ year_key <$> DMR_dates) then
           if decide (year ∈ year_key <$> PO_dates) then
             Some (PyFloat (Fin (Qc_of_Z (Z.of_N (count_year DMR_dates year))
                                 / Qc_of_Z (Z.of_N (count_year PO_dates year)) * c100)%Qc))
           else Some PyNone
         else None).
  { intros year.
    destruct (decide (year ∈ year_key <$> DMR_dates)) as [Hd|Hd].
    - assert (Hd' : year ∈ dmrs_years) by (by apply elem_of_first_seen).
      assert (HDy : D !! year = Some (count_year DMR_dates year)).
      { rewrite HDl. by rewrite decide_True by done. }
      destruct (decide (year ∈ year_key <$> PO_dates)) as [Hp|Hp].
      + assert (Hp' : year ∈ PO_years) by (by apply elem_of_first_seen).
        assert (HPy : P !! year = Some (count_year PO_dates year)).
        { rewrite HPl. by rewrite decide_True by done. }
        rewrite (Hval year _ _ HDy HPy).
        by rewrite decide_False by (by apply count_year_positive).
      + apply Hnone. split; [by eauto|]. rewrite HPl.
        rewrite decide_False; [done|]. unfold PO_years. by rewrite elem_of_first_seen.
    - destruct (ratios !! year) eqn:Hr; [|done].
      assert (Hs : is_Some (D !! year)) by (apply Hdom; eauto).
      rewrite HDl in Hs. destruct (decide (year ∈ dmrs_years)) as [Hin|]; [|by destruct Hs].
      destruct Hd. by apply elem_of_first_seen. }
  exists dmrs_years, PO_years, D, P, ratios.
  split; [exact Hdy|]. split; [exact Hpy|]. split; [exact HD|]. split; [exact HP|].
  split; [exact Hrun|]. split; [exact Hlook|].
  intros year x Hx. rewrite Hlook in Hx.
  destruct (decide (year ∈ year_key <$> DMR_dates)) as [Hd|]; [|done].
  destruct (decide (year ∈ year_key <$> PO_dates)) as [Hp|]; [|done].
  simplify_eq. eexists. split; [done|].
  apply ratio_pos; apply count_year_positive; by apply elem_of_first_seen.
Qed.

(** The month loop, with every cell of every year described. *)
Lemma month_ratio_full (DMRs_month_count PO_month_count : gmap string (gmap string N)) :
  (∀ year dm pm month,
     DMRs_month_count !! year = Some dm → PO_month_count !! year = Some pm →
     is_Some (pm !! month) → is_Some (dm !! month)) →
  ∃ ratios, DMR_PO_perc_month DMRs_month_count PO_month_count = Ok ratios
    ∧ (∀ year, is_Some (ratios !! year) ↔
               is_Some (DMRs_month_count !! year) ∧ is_Some (PO_month_count !! year))
    ∧ ∀ year year_ratio dm pm month,
        ratios !! year = Some year_ratio →
        DMRs_month_count !! year = Some dm → PO_month_count !! year = Some pm →
        year_ratio !! month =
          match pm !! month, dm !! month with
          | Some po_count, Some dmr_count =>
              if decide (po_count = 0%N) then None
              else Some (Fin (Qc_of_Z (Z.of_N dmr_count)
                              / Qc_of_Z (Z.of_N po_count) * c100)%Qc)
          | _, _ => None
          end.
Proof.
  intros Hcover.
  destruct (for_in_inv
    (λ done (ratios : gmap string (gmap string float)),
       (∀ year, is_Some (ratios !! year) ↔ year ∈ done)
       ∧ ∀ year year_ratio dm pm,
           ratios !! year = Some year_ratio →
           DMRs_month_count !! year = Some dm → PO_month_count !! year = Some pm →
           ∀ month, year_ratio !! month =
             match pm !! month, dm !! month with
             | Some po_count, Some dmr_count =>
                 if decide (po_count = 0%N) then None
                 else Some (Fin (Qc_of_Z (Z.of_N dmr_count)
                                 / Qc_of_Z (Z.of_N po_count) * c100)%Qc)
             | _, _ => None
             end)
    (sorted_common_keys DMRs_month_count PO_month_count)
    (λ year DMR_PO_perc_month,
       po_year ← getitem PO_month_count year;
       year_ratio ← for_in (keys po_year)
                      (month_body DMRs_month_count PO_month_count year) ∅;
       Ok (<[year := year_ratio]> DMR_PO_perc_month))
    ∅) as (ratios & Hrun & Hdom & Hval).
  { split.
    - intros year. rewrite lookup_empty. split; [intros [? ?]; done|set_solver].
    - intros year year_ratio dm pm Hlook. by rewrite lookup_empty in Hlook. }
  { intros done x rest ratios Hl [HIdom HIval].
    assert (Hx : x ∈ sorted_common_keys DMRs_month_count PO_month_count).
    { rewrite Hl. set_solver. }
    apply elem_of_sorted_common_keys in Hx as [[dm Hdm] [pm Hpm]].
    destruct (month_loop DMRs_month_count PO_month_count x dm pm Hdm Hpm)
      as (year_ratio & Hinner & Hspec).
    { intros month. by apply (Hcover x dm pm). }
    exists (<[x := year_ratio]> ratios). split.
    - unfold getitem. rewrite Hpm. simpl. rewrite Hinner. done.
    - split.
      + intros year. destruct (decide (year = x)) as [->|Hne].
        * rewrite lookup_insert_eq. split; [set_solver|eauto].
        * rewrite lookup_insert_ne by done. rewrite HIdom. set_solver.
      + intros year yr dm' pm' Hlook Hdm' Hpm'.
        destruct (decide (year = x)) as [->|Hne].
        * rewrite lookup_insert_eq in Hlook. simplify_eq. exact Hspec.
        * rewrite lookup_insert_ne in Hlook by done. by eapply HIval. }
  exists ratios. split; [exact Hrun|]. split.
  - intros year. rewrite Hdom. apply elem_of_sorted_common_keys.
  - intros year year_ratio dm pm month Hlook Hdm Hpm.
    apply (Hval year year_ratio dm pm Hlook Hdm Hpm).
Qed.

(** Run on the date columns of the two logs with the twelve month codes,
    the month-level steps never raise (no [KeyError]); the result has one
    dictionary for each year key the two logs share; in it a month has an
    entry exactly when the PO log has a date of that year and month, and the
    entry is 100 times the number of such DMR dates over the number of such
    PO dates, which may be 0. *)
Theorem month_ratios_of_logs (DMR_dates PO_dates : list string) :
  ∃ DMRs_month_count PO_month_count ratios,
    generate_count_dict DMR_dates "Month" unique_months
      = Some (MonthCounts DMRs_month_count)
    ∧ generate_count_dict PO_dates "Month" unique_months
      = Some (MonthCounts PO_month_count)
    ∧ DMR_PO_perc_month DMRs_month_count PO_month_count = Ok ratios
    ∧ (∀ yr, is_Some (ratios !! yr) ↔
             yr ∈ year_key <$> DMR_dates ∧ yr ∈ year_key <$> PO_dates)
    ∧ ∀ yr month,
        is_Some (ratios !! yr) →
        ratios !! yr ≫= (λ year_ratio, year_ratio !! month) =
          if decide (month ∈ unique_months ∧ count_year_month PO_dates yr month ≠ 0%N)
          then Some (Fin (Qc_of_Z (Z.of_N (count_year_month DMR_dates yr month))
                          / Qc_of_Z (Z.of_N (count_year_month PO_dates yr month))
                          * c100)%Qc)
          else None.
Proof.
  destruct (generate_count_dict_Month_run DMR_dates unique_months) as (D & HD & HDl).
  destruct (generate_count_dict_Month_run PO_dates unique_months) as (P & HP & HPl).
  destruct (month_ratio_full D P) as (ratios & Hrun & Hdom & Hval).
  { intros year dm pm month Hdm Hpm [po Hpo].
    destruct (generate_count_dict_Month_lookup _ _ _ year month dm HD Hdm) as [_ Hdmm].
    destruct (generate_count_dict_Month_lookup _ _ _ year month pm HP Hpm) as [_ Hpmm].
    rewrite Hpo in Hpmm. rewrite Hdmm.
    destruct (decide (month ∈ unique_months)); [eauto|done]. }
  assert (Hyears : ∀ yr, is_Some (ratios !! yr) ↔
             yr ∈ year_key <$> DMR_dates ∧ yr ∈ year_key <$> PO_dates).
  { intros yr. rewrite Hdom, HDl, HPl.
    rewrite <- (elem_of_first_seen (year_key <$> DMR_dates) yr).
    rewrite <- (elem_of_first_seen (year_key <$> PO_dates) yr).
    destruct (decide (yr ∈ first_seen (year_key <$> DMR_dates)));
      destruct (decide (yr ∈ first_seen (year_key <$> PO_dates))).
    - split; [done|eauto].
    - split; [intros [_ [? ?]]; done|intros [_ ?]; done].
    - split; [intros [[? ?] _]; done|intros [? _]; done].
    - split; [intros [[? ?] _]; done|intros [? _]; done]. }
  exists D, P, ratios. split; [exact HD|]. split; [exact HP|]. split; [exact Hrun|].
  split; [exact Hyears|].
  intros yr month Hsome. pose proof Hsome as [year_ratio Hr].
  apply Hdom in Hsome as [[dm Hdm] [pm Hpm]].
  destruct (generate_count_dict_Month_lookup _ _ _ yr month dm HD Hdm) as [_ Hdmm].
  destruct (generate_count_dict_Month_lookup _ _ _ yr month pm HP Hpm) as [_ Hpmm].
  rewrite Hr. simpl. rewrite (Hval yr year_ratio dm pm month Hr Hdm Hpm), Hdmm, Hpmm.
  destruct (decide (month ∈ unique_months)) as [Hm|Hm].
  - destruct (decide (count_year_month PO_dates yr month = 0%N)) as [Hz|Hz].
    + by rewrite decide_False by naive_solver.
    + by rewrite decide_True by done.
  - by rewrite decide_False by naive_solver.
Qed.

(** Records of other vendors, of other years, or with a date that cannot
    be read have no effect on the chart of a vendor and a year. *)
Theorem pbc_ignores_other_rows (parse_datetime : string → Datatypes.option timestamp)
    (vendor : string) (year : Z) (raw_df others : list dmr_row) :
  Forall (λ r, Vendor r ≠ vendor
               ∨ dt_year (to_datetime parse_datetime (Date r)) ≠ Some year) others →
  (calculate_and_plot_pbc parse_datetime vendor year (raw_df ++ others)).2
  = (calculate_and_plot_pbc parse_datetime vendor year raw_df).2.
Proof.
  intros Hothers. unfold calculate_and_plot_pbc. simpl. f_equal.
  unfold monthly_frame, convert_dates. rewrite fmap_app, list.filter_app.
  assert (Hnil : filter (λ r, Vendor r = vendor ∧ dt_year (Date r) = Some year)
                   ((λ r, {| Date := to_datetime parse_datetime (Date r);
                             Vendor := Vendor r |}) <$> others) = []).
  { induction Hothers as [|r others Hr _ IH]; [done|]. csimpl.
    rewrite filter_cons_False; [exact IH|]. simpl. naive_solver. }
  by rewrite Hnil, app_nil_r.
Qed.

Lemma pbc_ignores_other_rows_witness :
  (calculate_and_plot_pbc parse_iso "ACME" 2023
     ([ {| Date := DateStr "2023-01-05"; Vendor := "ACME" |} ]
      ++ [ {| Date := DateStr "2024-03-11"; Vendor := "BOLT" |};
           {| Date := DateStr "2022-07-01"; Vendor := "ACME" |};
           {| Date := DateStr "nan"; Vendor := "ACME" |} ])).2
  = (calculate_and_plot_pbc parse_iso "ACME" 2023
       [ {| Date := DateStr "2023-01-05"; Vendor := "ACME" |} ]).2.
Proof.
  apply (pbc_ignores_other_rows parse_iso "ACME" 2023).
  apply Forall_cons; [left; discriminate|].
  apply Forall_cons; [right; discriminate|].
  apply Forall_cons; [right; discriminate|].
  apply Forall_nil.
Defined.
